(** * Blog content pipeline: content resolution and upload conversion

    A shallow embedding of [src/utils/markdown.ts] (the read path:
    [getAllPosts], [getPostBySlug]) and of the [HtmlUploader] component
    (the write path: [handleFileSelect], [handleDeploy]), followed by the
    properties of the natural-language specification that they decide.

    JavaScript strings are sequences of UTF-16 code units, exceptions are
    an explicit outcome, [console.error] is a log that is threaded through,
    and the third-party libraries (front-matter, marked, DOMPurify, slugify,
    turndown, [Date]) are interfaces whose implementations are quantified
    over. *)

From Stdlib Require Import List NArith ZArith String Ascii Bool Lia.
From Stdlib Require Import Permutation Sorted.
Import ListNotations.

Set Implicit Arguments.

(* ================================================================== *)
(** * Part I: definitions *)
(* ================================================================== *)

(** ** JavaScript strings *)

Module JS.

(** A string is the list of its UTF-16 code units. *)
Definition jsstring := list N.

(** Literals: the code units of an ASCII text. *)
Definition js (s : string) : jsstring :=
  List.map N_of_ascii (list_ascii_of_string s).

Definition eqb (a b : jsstring) : bool :=
  if list_eq_dec N.eq_dec a b then true else false.

(** [LineTerminator] of ECMAScript: LF, CR, LS, PS. *)
Definition isLineTerminator (c : N) : bool :=
  N.eqb c 10 || N.eqb c 13 || N.eqb c 8232 || N.eqb c 8233.

(** What [\s] matches and what [trim] strips: [WhiteSpace] together with
    [LineTerminator]. *)
Definition isSpace (c : N) : bool :=
  isLineTerminator c
  || N.eqb c 9 || N.eqb c 11 || N.eqb c 12 || N.eqb c 32 || N.eqb c 160
  || N.eqb c 5760 || (N.leb 8192 c && N.leb c 8202)
  || N.eqb c 8239 || N.eqb c 8287 || N.eqb c 12288 || N.eqb c 65279.

Fixpoint dropWhile (p : N -> bool) (s : jsstring) : jsstring :=
  match s with
  | c :: t => if p c then dropWhile p t else s
  | [] => []
  end.

Fixpoint takeWhile (p : N -> bool) (s : jsstring) : jsstring :=
  match s with
  | c :: t => if p c then c :: takeWhile p t else []
  | [] => []
  end.

(** [s.trim()] *)
Definition trim (s : jsstring) : jsstring :=
  rev (dropWhile isSpace (rev (dropWhile isSpace s))).

(** [s.slice(0, n)] *)
Definition slice0 (n : nat) (s : jsstring) : jsstring := firstn n s.

(** Truthiness of a string: only the empty string is falsy. *)
Definition truthy (s : jsstring) : bool :=
  match s with [] => false | _ :: _ => true end.

(** [a || b] on strings. *)
Definition or_else (a b : jsstring) : jsstring :=
  if truthy a then a else b.

(** [s.endsWith(suffix)] *)
Definition endsWith (s suffix : jsstring) : bool :=
  (List.length suffix <=? List.length s)%nat
  && eqb (skipn (List.length s - List.length suffix) s) suffix.

(** [s.split(sep)[0]] for a one-unit separator. *)
Definition split_head (sep : N) (s : jsstring) : jsstring :=
  takeWhile (fun c => negb (N.eqb c sep)) s.

(** Lexicographic order on code units, the order of [<] on strings. *)
Fixpoint ltb (a b : jsstring) : bool :=
  match a, b with
  | [], [] => false
  | [], _ :: _ => true
  | _ :: _, [] => false
  | x :: a', y :: b' => N.ltb x y || (N.eqb x y && ltb a' b')
  end.

End JS.
Import JS.

(** ** Regular expressions

    The fragment of ECMAScript regular expressions that the uploader uses,
    with the [m] flag, greedy quantifiers and backtracking. *)

Module Regex.

Inductive re : Type :=
| Bol                       (* ^ *)
| Eol                       (* $ *)
| Chr (p : N -> bool)       (* one code unit of a class *)
| Star (p : N -> bool)      (* class*, greedy *)
| Seq (a b : re)
| Grp (a : re).             (* ( ), capture group 1 *)

(** class+ *)
Definition Plus (p : N -> bool) : re := Seq (Chr p) (Star p).

(** Where the matcher stands: the unit before, the text ahead, the index,
    and what group 1 holds. *)
Record cursor : Type := Cursor {
  before : option N;
  ahead : jsstring;
  index : nat;
  group1 : option jsstring
}.

(** The result of a match: [m[0]] and [m[1]]. *)
Definition result : Type := (jsstring * option jsstring)%type.

Definition at_bol (c : cursor) : bool :=
  match before c with
  | None => true
  | Some u => isLineTerminator u
  end.

Definition at_eol (c : cursor) : bool :=
  match ahead c with
  | [] => true
  | u :: _ => isLineTerminator u
  end.

(** Greedy iteration: the longest run first, then one unit less at a time. *)
Fixpoint star (p : N -> bool) (k : cursor -> option result)
         (prev : option N) (s : jsstring) (i : nat) (g : option jsstring)
  : option result :=
  match s with
  | u :: t =>
      if p u then
        match star p k (Some u) t (S i) g with
        | Some r => Some r
        | None => k (Cursor prev s i g)
        end
      else k (Cursor prev s i g)
  | [] => k (Cursor prev s i g)
  end.

Fixpoint exec (r : re) (k : cursor -> option result) (c : cursor)
  : option result :=
  match r with
  | Bol => if at_bol c then k c else None
  | Eol => if at_eol c then k c else None
  | Chr p =>
      match ahead c with
      | u :: t => if p u then k (Cursor (Some u) t (S (index c)) (group1 c))
                  else None
      | [] => None
      end
  | Star p => star p k (before c) (ahead c) (index c) (group1 c)
  | Seq a b => exec a (exec b k) c
  | Grp a =>
      exec a (fun c' =>
                k (Cursor (before c') (ahead c') (index c')
                     (Some (firstn (index c' - index c) (ahead c))))) c
  end.

(** Where a greedy iteration stands after its longest run. *)
Fixpoint after_run (p : N -> bool) (prev : option N) (s : jsstring)
         (i : nat) (g : option jsstring) : cursor :=
  match s with
  | u :: t => if p u then after_run p (Some u) t (S i) g
              else Cursor prev s i g
  | [] => Cursor prev s i g
  end.

(** The continuation that ends a match begun at index [i] of [s]. *)
Definition finish (i : nat) (s : jsstring) (c' : cursor) : option result :=
  Some (firstn (index c' - i) s, group1 c').

(** One attempt at a given start. *)
Definition attempt (r : re) (prev : option N) (s : jsstring) (i : nat)
  : option result :=
  exec r (finish i s) (Cursor prev s i None).

(** Leftmost match: every start from left to right, the end included. *)
Fixpoint scan (r : re) (prev : option N) (s : jsstring) (i : nat)
  : option result :=
  match attempt r prev s i with
  | Some m => Some m
  | None =>
      match s with
      | u :: t => scan r (Some u) t (S i)
      | [] => None
      end
  end.

(** [s.match(r)] for a regular expression without the [g] flag. *)
Definition re_match (r : re) (s : jsstring) : option result :=
  scan r None s 0.

End Regex.

(** ** Exceptions and the console

    A computation either returns or throws, and appends to the console
    what it logs with [console.error]. *)

Module Effects.

(** What is thrown: the message of the error. *)
Definition Err : Type := jsstring.

Inductive Outcome (A : Type) : Type :=
| Returned (a : A)
| Thrown (e : Err).
Arguments Returned {A} a.
Arguments Thrown {A} e.

Record LogLine : Type := { label : jsstring; detail : Err }.
Definition Console : Type := list LogLine.

Definition M (A : Type) : Type := Console -> Outcome A * Console.

Definition ret {A} (a : A) : M A := fun log => (Returned a, log).

Definition bind {A B} (m : M A) (f : A -> M B) : M B :=
  fun log =>
    match m log with
    | (Returned a, log') => f a log'
    | (Thrown e, log') => (Thrown e, log')
    end.

Definition throw {A} (e : Err) : M A := fun log => (Thrown e, log).

(** [await p], where the promise [p] settles with the given outcome. *)
Definition await {A} (o : Outcome A) : M A := fun log => (o, log).

(** [console.error(label, detail)] *)
Definition console_error (l : jsstring) (e : Err) : M unit :=
  fun log => (Returned tt, log ++ [{| label := l; detail := e |}]).

(** [try { m } catch (e) { h e }] *)
Definition try_catch {A} (m : M A) (h : Err -> M A) : M A :=
  fun log =>
    match m log with
    | (Returned a, log') => (Returned a, log')
    | (Thrown e, log') => h e log'
    end.

Definition run {A} (m : M A) : Outcome A := fst (m []).

End Effects.
Import Effects.

Notation "x <- m ;; k" := (bind m (fun x => k))
  (at level 61, m at next level, right associativity).
Notation "m ;;; k" := (bind m (fun _ => k))
  (at level 61, right associativity).

(** ** The remote store, as the client sees it *)

Module Store.

(** A record of the [blog_posts] collection, with the field names of the
    wire. *)
Record Row : Type := {
  slug : jsstring;
  title : jsstring;
  date : jsstring;
  excerpt : jsstring;
  featured_image : option jsstring;
  content : jsstring;
  created_at : jsstring
}.

(** What a query resolves to: [{ data, error }]. *)
Record Response (A : Type) : Type := {
  data : option A;
  error : option Err
}.

(** The order that [.order('created_at', { ascending: false })] asks the
    store for, on timestamps in the format of [toISOString]. *)
Fixpoint created_at_descending (rows : list Row) : bool :=
  match rows with
  | a :: ((b :: _) as rest) =>
      negb (JS.ltb (created_at a) (created_at b)) && created_at_descending rest
  | _ => true
  end.

End Store.

(** ** [src/utils/markdown.ts] *)

Module Markdown.

Record BlogPost : Type := {
  title : jsstring;
  date : jsstring;
  slug : jsstring;
  excerpt : jsstring;
  featuredImage : option jsstring;
  content : jsstring
}.

Record BlogFrontMatter : Type := {
  fm_title : jsstring;
  fm_date : jsstring;
  fm_slug : jsstring;
  fm_excerpt : jsstring;
  fm_featuredImage : option jsstring
}.

(** The libraries the module imports. [frontMatter] throws on a header it
    cannot parse; [marked_parse] and [sanitize] are functions from text to
    text; [getTime] is [new Date(s).getTime()], with [None] for [NaN]. *)
Class Libs : Type := {
  frontMatter : jsstring -> Outcome (BlogFrontMatter * jsstring);
  marked_parse : jsstring -> jsstring;
  sanitize : jsstring -> jsstring;
  getTime : jsstring -> option Z
}.

(** The local documents: in the order of the glob, each path with what its
    loader settles to. *)
Definition MarkdownFiles : Type := list (jsstring * Outcome jsstring).

Section WithLibs.
Context {L : Libs}.

(** The object literal of lines 37-44 and 92-99. *)
Definition post_of_row (post : Store.Row) : BlogPost :=
  {| title := Store.title post;
     date := Store.date post;
     slug := Store.slug post;
     excerpt := Store.excerpt post;
     featuredImage := Store.featured_image post;
     content := Store.content post |}.

(** [{ ...attributes, content: DOMPurify.sanitize(marked.parse(body)) }] *)
Definition post_of_document (attributes : BlogFrontMatter) (body : jsstring)
  : BlogPost :=
  {| title := fm_title attributes;
     date := fm_date attributes;
     slug := fm_slug attributes;
     excerpt := fm_excerpt attributes;
     featuredImage := fm_featuredImage attributes;
     content := sanitize (marked_parse body) |}.

(** The comparator of line 69; [None] is [NaN]. The difference of two
    timestamps is taken exactly: only its sign is used. *)
Definition by_date (a b : BlogPost) : option Z :=
  match getTime (date b), getTime (date a) with
  | Some tb, Some ta => Some (tb - ta)%Z
  | _, _ => None
  end.

(** [comparefn(x, y) < 0]; a [NaN] counts as [+0]. *)
Definition negative (v : option Z) : bool :=
  match v with
  | Some z => (z <? 0)%Z
  | None => false
  end.

(** [Array.prototype.sort]: a stable sort, [x] before [y] when
    [comparefn(x, y) < 0]. This is the order of the program when the
    comparator is consistent, that is, when every date parses. Where it is
    not (a date that does not parse compares as [NaN]) the language leaves
    the order to the implementation, and the order computed here need not
    be the one a given engine produces: of such a result only the elements
    are meant, and nothing below states its order. *)
Fixpoint insert (comparefn : BlogPost -> BlogPost -> option Z)
         (x : BlogPost) (l : list BlogPost) : list BlogPost :=
  match l with
  | [] => [x]
  | y :: t =>
      if negative (comparefn y x) then y :: insert comparefn x t
      else x :: l
  end.

Definition sort (comparefn : BlogPost -> BlogPost -> option Z)
           (l : list BlogPost) : list BlogPost :=
  fold_right (insert comparefn) [] l.

Definition processing_label (path : jsstring) : jsstring :=
  js "Error processing markdown file " ++ path ++ js ":".

(** The loop of lines 54-66. *)
Fixpoint collect (markdownFiles : MarkdownFiles) (posts : list BlogPost)
  : M (list BlogPost) :=
  match markdownFiles with
  | [] => ret posts
  | (path, load) :: rest =>
      posts' <-
        try_catch
          (content <- await load ;;
           parsed <- await (frontMatter content) ;;
           let '(attributes, body) := parsed in
           ret (posts ++ [post_of_document attributes body]))
          (fun error =>
             console_error (processing_label path) error ;;;
             ret posts) ;;
      collect rest posts'
  end.

Definition getAllPosts
           (query : Outcome (Store.Response (list Store.Row)))
           (markdownFiles : MarkdownFiles) : M (list BlogPost) :=
  try_catch
    (response <- await query ;;
     let supabasePosts := Store.data response in
     match Store.error response with
     | Some supabaseError =>
         console_error (js "Supabase fetch error:") supabaseError
     | None => ret tt
     end ;;;
     match supabasePosts with
     | Some ((_ :: _) as rows) => ret (List.map post_of_row rows)
     | _ =>
         posts <- collect markdownFiles [] ;;
         ret (sort by_date posts)
     end)
    (fun err =>
       console_error (js "Error fetching blog posts:") err ;;;
       ret []).

(** The loop of lines 108-122: [Some] is the [return] inside it. *)
Fixpoint search (slug : jsstring) (markdownFiles : MarkdownFiles)
  : M (option BlogPost) :=
  match markdownFiles with
  | [] => ret None
  | (path, load) :: rest =>
      found <-
        try_catch
          (content <- await load ;;
           parsed <- await (frontMatter content) ;;
           let '(attributes, body) := parsed in
           if JS.eqb (fm_slug attributes) slug
           then ret (Some (post_of_document attributes body))
           else ret None)
          (fun error =>
             console_error (processing_label path) error ;;;
             ret None) ;;
      match found with
      | Some post => ret (Some post)
      | None => search slug rest
      end
  end.

Definition getPostBySlug (slug : jsstring)
           (query : Outcome (Store.Response Store.Row))
           (markdownFiles : MarkdownFiles) : M (option BlogPost) :=
  try_catch
    (response <- await query ;;
     let supabaseData := Store.data response in
     match Store.error response with
     | Some supabaseError =>
         console_error (js "Supabase fetch error:") supabaseError
     | None => ret tt
     end ;;;
     match supabaseData with
     | Some row => ret (Some (post_of_row row))
     | None => search slug markdownFiles
     end)
    (fun err =>
       console_error (js "Error fetching blog post:") err ;;;
       ret None).

End WithLibs.

End Markdown.

(** ** The [HtmlUploader] component *)

Module Uploader.
Import Regex.

Record File : Type := {
  name : jsstring;
  type : jsstring;
  text : jsstring         (* what [readAsText] reads *)
}.

Record Metadata : Type := {
  title : jsstring;
  slug : jsstring;
  date : jsstring;
  featuredImage : jsstring;
  excerpt : jsstring
}.

(** The state that the hooks of lines 17-27 hold. *)
Record State : Type := {
  file : option File;
  markdown : jsstring;
  metadata : Metadata;
  error : option jsstring;
  isDeploying : bool
}.

(** The libraries the component imports; [turndown] is the service as
    configured in lines 44-59. *)
Class Libs : Type := {
  slugify : jsstring -> jsstring;
  toLowerCase : jsstring -> jsstring;
  turndown : jsstring -> jsstring
}.

(** [iso.split('T')[0]] *)
Definition date_part (iso : jsstring) : jsstring := split_head 84 iso.

(** The state at mount; [now] is [new Date().toISOString()] then. *)
Definition initial (now : jsstring) : State :=
  {| file := None;
     markdown := [];
     metadata := {| title := []; slug := []; date := date_part now;
                    featuredImage := []; excerpt := [] |};
     error := None;
     isDeploying := false |}.

Definition setFile (f : option File) (st : State) : State :=
  {| file := f; markdown := markdown st; metadata := metadata st;
     error := error st; isDeploying := isDeploying st |}.
Definition setMarkdown (m : jsstring) (st : State) : State :=
  {| file := file st; markdown := m; metadata := metadata st;
     error := error st; isDeploying := isDeploying st |}.
Definition setMetadata (f : Metadata -> Metadata) (st : State) : State :=
  {| file := file st; markdown := markdown st; metadata := f (metadata st);
     error := error st; isDeploying := isDeploying st |}.
Definition setError (e : option jsstring) (st : State) : State :=
  {| file := file st; markdown := markdown st; metadata := metadata st;
     error := e; isDeploying := isDeploying st |}.
Definition setIsDeploying (b : bool) (st : State) : State :=
  {| file := file st; markdown := markdown st; metadata := metadata st;
     error := error st; isDeploying := b |}.

Definition hash : N := 35.
Definition newline : N := 10.

(** [/^#\s*(.+)$/m] *)
Definition titleRe : re :=
  Seq Bol
    (Seq (Chr (N.eqb hash))
       (Seq (Star isSpace)
          (Seq (Grp (Plus (fun c => negb (isLineTerminator c)))) Eol))).

(** [/^[^#\n]+/m] *)
Definition excerptRe : re :=
  Seq Bol (Plus (fun c => negb (N.eqb c hash || N.eqb c newline))).

(** [m[1]]; the group takes part in every match of [titleRe]. *)
Definition group (m : result) : jsstring :=
  match snd m with
  | Some g => g
  | None => []
  end.

(** What [handleDeploy] does outside the state. *)
Inductive Effect : Type :=
| Insert (p : Store.Row)
| Navigate (path : jsstring)
| ConsoleError (l : jsstring) (e : Err).

(** The component together with the inserts that have been issued and
    those of them that have not settled. *)
Record World : Type := {
  ui : State;
  outstanding : list Store.Row;
  issued : list Store.Row
}.

Section WithLibs.
Context {L : Libs}.

(** The updater of lines 68-73. *)
Definition extracted (markdownContent : jsstring) (prev : Metadata)
  : Metadata :=
  let titleMatch := re_match titleRe markdownContent in
  let excerptMatch := re_match excerptRe markdownContent in
  {| title := match titleMatch with
              | Some m => trim (group m)
              | None => []
              end;
     slug := match titleMatch with
             | Some m => slugify (toLowerCase (group m))
             | None => []
             end;
     date := date prev;
     featuredImage := featuredImage prev;
     excerpt := match excerptMatch with
                | Some m => slice0 200 (trim (fst m))
                | None => []
                end |}.

(** The test of line 31, negated. *)
Definition accepted (selectedFile : File) : bool :=
  JS.eqb (type selectedFile) (js "text/html")
  || endsWith (toLowerCase (name selectedFile)) (js ".html").

(** [reader.onload], lines 40-74. *)
Definition onload (htmlContent : jsstring) (st : State) : State :=
  let markdownContent := turndown htmlContent in
  setMetadata (extracted markdownContent)
    (setMarkdown markdownContent st).

(** [handleFileSelect] up to [reader.readAsText]: the new state, and
    whether a read was started. *)
Definition handleFileSelect (selectedFile : File) (st : State)
  : State * bool :=
  if negb (accepted selectedFile)
  then (setError (Some (js "Please select a valid HTML file")) st, false)
  else (setError None (setFile (Some selectedFile) st), true).

(** A selection whose read completes. *)
Definition fileSelected (selectedFile : File) (st : State) : State :=
  match handleFileSelect selectedFile st with
  | (st', true) => onload (text selectedFile) st'
  | (st', false) => st'
  end.

(** The [onChange] handlers of lines 167-171 and 180. *)
Definition titleChanged (value : jsstring) (st : State) : State :=
  setMetadata (fun prev =>
    {| title := value; slug := slugify (toLowerCase value);
       date := date prev; featuredImage := featuredImage prev;
       excerpt := excerpt prev |}) st.
Definition markdownChanged (value : jsstring) (st : State) : State :=
  setMarkdown value st.

(** The payload of lines 102-114; [now] is [new Date().toISOString()]
    in the browser. *)
Definition payload (now : jsstring) (st : State) : Store.Row :=
  {| Store.slug := slugify (toLowerCase (title (metadata st)));
     Store.title := title (metadata st);
     Store.date := date (metadata st);
     Store.excerpt :=
       or_else (excerpt (metadata st)) (slice0 200 (markdown st));
     Store.featured_image :=
       if truthy (featuredImage (metadata st))
       then Some (featuredImage (metadata st)) else None;
     Store.content := markdown st;
     Store.created_at := now |}.

(** The [catch] and [finally] blocks of lines 127-132. *)
Definition failed (err : Err) (st : State) : State :=
  setIsDeploying false
    (setError (Some (or_else err (js "Failed to deploy blog post"))) st).

(** [handleDeploy] up to its [await]: the state then, and the insert
    that is awaited, if one was issued. [st] is the state of the render
    whose closure runs. *)
Definition deploy_begin (now : jsstring) (st : State)
  : State * list Effect * option Store.Row :=
  let st1 := setError None (setIsDeploying true st) in
  if negb (truthy (title (metadata st))) || negb (truthy (markdown st))
  then
    let err := js "Title and content are required" in
    (failed err st1, [ConsoleError (js "Deployment error:") err], None)
  else
    let p := payload now st in
    (st1, [Insert p], Some p).

(** [handleDeploy] from the moment the insert settles. *)
Definition deploy_settle (p : Store.Row)
           (settled : Outcome (Store.Response (list Store.Row)))
           (st : State) : State * list Effect :=
  let thrown :=
    match settled with
    | Thrown e => Some e
    | Returned r => Store.error r
    end in
  match thrown with
  | Some err =>
      (failed err st, [ConsoleError (js "Deployment error:") err])
  | None =>
      (setIsDeploying false st,
       [Navigate (js "/blog/" ++ Store.slug p)])
  end.

(** [handleDeploy], run to its end against a store that answers an
    insert with [insert]. *)
Definition handleDeploy (now : jsstring)
           (insert : Store.Row ->
                     Outcome (Store.Response (list Store.Row)))
           (st : State) : State * list Effect :=
  match deploy_begin now st with
  | (st1, effects, None) => (st1, effects)
  | (st1, effects, Some p) =>
      let '(st2, effects') := deploy_settle p (insert p) st1 in
      (st2, effects ++ effects')
  end.

(** The [disabled] attribute of the deploy button, line 194. *)
Definition disabled (st : State) : bool :=
  negb (truthy (title (metadata st)))
  || negb (truthy (markdown st))
  || isDeploying st.

(** The form, the button included, is rendered under [markdown &&],
    line 160. *)
Definition rendered (st : State) : bool := truthy (markdown st).

Definition mounted (now : jsstring) : World :=
  {| ui := initial now; outstanding := []; issued := [] |}.

(** One event of the page. A read may complete with any text and an
    insert may settle with any outcome. A handler runs on the state as it
    is when its event arrives: which elements the last committed render
    showed, and whether the button in it was disabled, is not tracked,
    since the updates of one event need not be committed before the next
    event of the same task; [handleDeploy] itself does not look at
    [isDeploying]. *)
Inductive step : World -> World -> Prop :=
| step_select w f :
    step w {| ui := fst (handleFileSelect f (ui w));
              outstanding := outstanding w; issued := issued w |}
| step_onload w htmlContent :
    step w {| ui := onload htmlContent (ui w);
              outstanding := outstanding w; issued := issued w |}
| step_title w v :
    step w {| ui := titleChanged v (ui w);
              outstanding := outstanding w; issued := issued w |}
| step_markdown w v :
    step w {| ui := markdownChanged v (ui w);
              outstanding := outstanding w; issued := issued w |}
| step_click w now st' effects awaited :
    deploy_begin now (ui w) = (st', effects, awaited) ->
    step w {| ui := st';
              outstanding :=
                match awaited with
                | Some p => outstanding w ++ [p]
                | None => outstanding w
                end;
              issued :=
                match awaited with
                | Some p => issued w ++ [p]
                | None => issued w
                end |}
| step_settle w before p after settled st' effects :
    outstanding w = before ++ p :: after ->
    deploy_settle p settled (ui w) = (st', effects) ->
    step w {| ui := st'; outstanding := before ++ after;
              issued := issued w |}.

Inductive reachable (now : jsstring) : World -> Prop :=
| reach_mounted : reachable now (mounted now)
| reach_step w w' : reachable now w -> step w w' -> reachable now w'.

End WithLibs.

End Uploader.

(** ** The extraction heuristics, read off the text

    What the two regular expressions of [handleFileSelect] find, written
    as scans of the text, and the excerpt as the specification words it. *)

Module Outline.

Definition line_start (prev : option N) : bool :=
  match prev with
  | None => true
  | Some u => isLineTerminator u
  end.

(** The text from the first unit that stands at a line start and
    satisfies [p]. *)
Fixpoint line_start_suffix (p : N -> bool) (prev : option N) (s : jsstring)
  : option jsstring :=
  match s with
  | [] => None
  | u :: t =>
      if line_start prev && p u then Some s
      else line_start_suffix p (Some u) t
  end.

Definition inline (c : N) : bool := negb (isLineTerminator c).
Definition plain (c : N) : bool :=
  negb (N.eqb c Uploader.hash || N.eqb c Uploader.newline).

(** What follows the first [#] that stands at a line start. *)
Definition heading_rest (md : jsstring) : option jsstring :=
  match line_start_suffix (N.eqb Uploader.hash) None md with
  | Some (_ :: rest) => Some rest
  | _ => None
  end.

(** The text of a heading whose mark is followed by [rest]: past the
    white space, up to the end of the line; when only white space follows
    to the end of the text, its last unit that is not a line terminator. *)
Definition heading_text (rest : jsstring) : option jsstring :=
  match dropWhile isSpace rest with
  | (_ :: _) as tail => Some (takeWhile inline tail)
  | [] => option_map (fun c => [c]) (find inline (rev rest))
  end.

Definition heading_capture (md : jsstring) : option jsstring :=
  match heading_rest md with
  | Some rest => heading_text rest
  | None => None
  end.

Definition heading_title (md : jsstring) : jsstring :=
  match heading_rest md with
  | Some rest => trim (takeWhile inline (dropWhile isSpace rest))
  | None => []
  end.

(** The first run of units other than [#] and LF that begins at a line
    start. *)
Definition plain_run (md : jsstring) : jsstring :=
  match line_start_suffix plain None md with
  | Some s => takeWhile plain s
  | None => []
  end.

(** The lines of a text, split at LF. *)
Fixpoint split_lines (s : jsstring) (current : jsstring) : list jsstring :=
  match s with
  | [] => [rev current]
  | c :: t =>
      if N.eqb c Uploader.newline then rev current :: split_lines t []
      else split_lines t (c :: current)
  end.
Definition lines_of (s : jsstring) : list jsstring := split_lines s [].

Definition is_heading (line : jsstring) : bool :=
  match line with
  | c :: _ => N.eqb c Uploader.hash
  | [] => false
  end.

(** In the words of the specification: the first line that is non-empty
    and not itself a heading, truncated to 200 characters; empty if there
    is none. *)
Definition excerpt_by_lines (md : jsstring) : jsstring :=
  match find (fun l => truthy l && negb (is_heading l)) (lines_of md) with
  | Some l => slice0 200 l
  | None => []
  end.

End Outline.

(** ** The read path, read off its inputs *)

Module Resolution.
Import Markdown.

Section WithLibs.
Context {L : Libs}.

(** The rows a query delivered, when it delivered any. *)
Definition remote_rows (query : Outcome (Store.Response (list Store.Row)))
  : option (list Store.Row) :=
  match query with
  | Returned r =>
      match Store.data r with
      | Some ((_ :: _) as rows) => Some rows
      | _ => None
      end
  | Thrown _ => None
  end.

(** The local path is taken: the query settled and delivered no row. *)
Definition falls_back (query : Outcome (Store.Response (list Store.Row)))
  : bool :=
  match query with
  | Returned r =>
      match Store.data r with
      | Some (_ :: _) => false
      | _ => true
      end
  | Thrown _ => false
  end.

(** The documents that load and parse, in the order of the glob, each
    with its header and body. *)
Fixpoint well_formed (markdownFiles : MarkdownFiles)
  : list (BlogFrontMatter * jsstring) :=
  match markdownFiles with
  | [] => []
  | (_, Returned content) :: rest =>
      match frontMatter content with
      | Returned parsed => parsed :: well_formed rest
      | Thrown _ => well_formed rest
      end
  | (_, Thrown _) :: rest => well_formed rest
  end.

Definition rendered_post (d : BlogFrontMatter * jsstring) : BlogPost :=
  post_of_document (fst d) (snd d).

Definition local_match (slug : jsstring) (markdownFiles : MarkdownFiles)
  : option BlogPost :=
  option_map rendered_post
    (find (fun d => JS.eqb (fm_slug (fst d)) slug)
          (well_formed markdownFiles)).

(** What [getAllPosts] resolves to. *)
Definition resolved_posts
           (query : Outcome (Store.Response (list Store.Row)))
           (markdownFiles : MarkdownFiles) : list BlogPost :=
  match query with
  | Thrown _ => []
  | Returned _ =>
      match remote_rows query with
      | Some rows => List.map post_of_row rows
      | None =>
          sort by_date (List.map rendered_post (well_formed markdownFiles))
      end
  end.

(** What [getPostBySlug] resolves to. *)
Definition resolved_post (slug : jsstring)
           (query : Outcome (Store.Response Store.Row))
           (markdownFiles : MarkdownFiles) : option BlogPost :=
  match query with
  | Thrown _ => None
  | Returned r =>
      match Store.data r with
      | Some row => Some (post_of_row row)
      | None => local_match slug markdownFiles
      end
  end.

(** A post that carries the fields of a row of the store. *)
Definition from_row (rows : list Store.Row) (p : BlogPost) : Prop :=
  exists row,
    In row rows /\ title p = Store.title row /\
    date p = Store.date row /\ slug p = Store.slug row.

(** A post that carries the header of a local document and the
    rendered, sanitized body. *)
Definition from_document (markdownFiles : MarkdownFiles) (p : BlogPost)
  : Prop :=
  exists attributes body,
    In (attributes, body) (well_formed markdownFiles) /\
    title p = fm_title attributes /\ date p = fm_date attributes /\
    slug p = fm_slug attributes /\
    content p = sanitize (marked_parse body).

Definition dated (p : BlogPost) : Prop := getTime (date p) <> None.

(** [a] is not older than [b]. *)
Definition not_older (a b : BlogPost) : Prop :=
  exists ta tb,
    getTime (date a) = Some ta /\ getTime (date b) = Some tb /\
    (tb <= ta)%Z.

Definition not_olderb (a b : BlogPost) : bool :=
  match getTime (date a), getTime (date b) with
  | Some ta, Some tb => (tb <=? ta)%Z
  | _, _ => false
  end.

(** Sorted by [date], newest first, as a test on neighbours. *)
Fixpoint newest_first (l : list BlogPost) : bool :=
  match l with
  | a :: ((b :: _) as rest) => not_olderb a b && newest_first rest
  | _ => true
  end.

(** The three fields the data model calls non-empty. *)
Definition filled (p : BlogPost) : bool :=
  truthy (title p) && truthy (date p) && truthy (slug p).

End WithLibs.

End Resolution.

(** ** Stand-ins for the libraries

    Small implementations of the two library interfaces, on which the
    statements below are exercised. *)

Module Demo.

Definition LF : jsstring := [10%N].

Definition lower_unit (c : N) : N :=
  if (N.leb 65 c && N.leb c 90)%bool then (c + 32)%N else c.
Definition toLowerCase (s : jsstring) : jsstring := List.map lower_unit s.

Definition slug_unit (c : N) : bool :=
  (N.leb 97 c && N.leb c 122) || (N.leb 48 c && N.leb c 57) || N.eqb c 45.

(** Trim, a dash for each space, and only letters, digits and dashes. *)
Definition slugify (s : jsstring) : jsstring :=
  filter slug_unit
    (List.map (fun c => if N.eqb c 32 then 45%N else c) (trim s)).

Definition hello_html : jsstring := js "<h1>Hello</h1><p>World</p>".
Definition hello_md : jsstring := js "# Hello" ++ LF ++ LF ++ js "World".

Definition turndown (html : jsstring) : jsstring :=
  if JS.eqb html hello_html then hello_md else html.

Definition upload : Uploader.Libs :=
  {| Uploader.slugify := slugify;
     Uploader.toLowerCase := toLowerCase;
     Uploader.turndown := turndown |}.

(** Two documents with a header, one without a title, one that does not
    parse. *)
Definition doc (title date slug body : string) : jsstring :=
  js "---" ++ LF ++ js "title: " ++ js title ++ LF
  ++ js "date: " ++ js date ++ LF ++ js "slug: " ++ js slug ++ LF
  ++ js "---" ++ LF ++ js body.

Definition header (title date slug : string) : Markdown.BlogFrontMatter :=
  {| Markdown.fm_title := js title; Markdown.fm_date := js date;
     Markdown.fm_slug := js slug; Markdown.fm_excerpt := [];
     Markdown.fm_featuredImage := None |}.

Definition known : list (string * string * string * string) :=
  [ ("Older", "2024-01-01", "older", "first body");
    ("Newer", "2024-01-03", "newer", "second body");
    ("", "2024-01-02", "untitled", "third body") ]%string.

Fixpoint lookup (content : jsstring)
         (table : list (string * string * string * string))
  : Outcome (Markdown.BlogFrontMatter * jsstring) :=
  match table with
  | [] => Thrown (js "can not read a block mapping entry")
  | (t, d, s, b) :: rest =>
      if JS.eqb content (doc t d s b)
      then Returned (header t d s, js b)
      else lookup content rest
  end.

Definition frontMatter (content : jsstring) := lookup content known.

Definition marked_parse (body : jsstring) : jsstring :=
  js "<p>" ++ body ++ js "</p>" ++ LF.

(** Drops the units of every [<script]. *)
Fixpoint strip (skip : nat) (s : jsstring) : jsstring :=
  match s with
  | [] => []
  | c :: t =>
      match skip with
      | S n => strip n t
      | O =>
          if JS.eqb (firstn 7 s) (js "<script") then strip 6 t
          else c :: strip 0 t
      end
  end.
Definition sanitize (html : jsstring) : jsstring := strip 0 html.

(** Midnight UTC of three days of January 2024, in milliseconds. *)
Definition getTime (date : jsstring) : option Z :=
  if JS.eqb date (js "2024-01-01") then Some 1704067200000%Z
  else if JS.eqb date (js "2024-01-02") then Some 1704153600000%Z
  else if JS.eqb date (js "2024-01-03") then Some 1704240000000%Z
  else None.

Definition read : Markdown.Libs :=
  {| Markdown.frontMatter := frontMatter;
     Markdown.marked_parse := marked_parse;
     Markdown.sanitize := sanitize;
     Markdown.getTime := getTime |}.

Definition files : Markdown.MarkdownFiles :=
  [ (js "/content/blog/older.md",
     Returned (doc "Older" "2024-01-01" "older" "first body"));
    (js "/content/blog/broken.md", Returned (js "---"));
    (js "/content/blog/missing.md", Thrown (js "Failed to fetch"));
    (js "/content/blog/newer.md",
     Returned (doc "Newer" "2024-01-03" "newer" "second body")) ].

Definition untitled : Markdown.MarkdownFiles :=
  [ (js "/content/blog/untitled.md",
     Returned (doc "" "2024-01-02" "untitled" "third body")) ].

(** Two records written by the uploader itself: the first from a page
    opened on 1 January and submitted on 3 January, the second from a
    page opened and submitted on 2 January. *)
Definition second_md : jsstring := js "# Second" ++ LF ++ LF ++ js "Text".

Definition draft (mounted html : jsstring) : Uploader.State :=
  @Uploader.onload upload html (Uploader.initial mounted).

Definition row_late : Store.Row :=
  @Uploader.payload upload (js "2024-01-03T09:00:00.000Z")
    (draft (js "2024-01-01T10:00:00.000Z") hello_html).

Definition row_early : Store.Row :=
  @Uploader.payload upload (js "2024-01-02T09:00:00.000Z")
    (draft (js "2024-01-02T08:00:00.000Z") second_md).

Definition two_rows : Outcome (Store.Response (list Store.Row)) :=
  Returned {| Store.data := Some [row_late; row_early];
              Store.error := None |}.

Definition no_rows : Outcome (Store.Response (list Store.Row)) :=
  Returned {| Store.data := Some []; Store.error := None |}.

Definition no_row : Outcome (Store.Response Store.Row) :=
  Returned {| Store.data := None;
              Store.error := Some (js "no rows returned") |}.

End Demo.

(** ** The console of the read path

    What the two read operations write to the console, read off their
    inputs. *)

Module Diagnostics.
Import Markdown.

(** The line that a response with an error adds. *)
Definition query_line {A : Type} (r : Store.Response A) : Console :=
  match Store.error r with
  | Some supabaseError =>
      [{| label := js "Supabase fetch error:"; detail := supabaseError |}]
  | None => []
  end.

Section WithLibs.
Context {L : Libs}.

(** What a document throws, when its loader or its header does. *)
Definition thrown_by (load : Outcome jsstring) : option Err :=
  match load with
  | Thrown e => Some e
  | Returned content =>
      match frontMatter content with
      | Thrown e => Some e
      | Returned _ => None
      end
  end.

(** One line for each document that is skipped, in the order of the glob. *)
Fixpoint failures (markdownFiles : MarkdownFiles) : Console :=
  match markdownFiles with
  | [] => []
  | (path, load) :: rest =>
      match thrown_by load with
      | Some e => {| label := processing_label path; detail := e |}
                  :: failures rest
      | None => failures rest
      end
  end.

(** The header of a document carries the slug. *)
Definition carries (slug : jsstring) (load : Outcome jsstring) : bool :=
  match load with
  | Returned content =>
      match frontMatter content with
      | Returned (attributes, _) => JS.eqb (fm_slug attributes) slug
      | Thrown _ => false
      end
  | Thrown _ => false
  end.

(** The documents that come before the first one that carries the slug. *)
Fixpoint before_match (slug : jsstring) (markdownFiles : MarkdownFiles)
  : MarkdownFiles :=
  match markdownFiles with
  | [] => []
  | (path, load) :: rest =>
      if carries slug load then []
      else (path, load) :: before_match slug rest
  end.

End WithLibs.

End Diagnostics.

(** ** Lines of a text *)

Module Lines.

Definition not_newline (c : N) : bool := negb (N.eqb c Uploader.newline).

(** The first line, split at LF, that is not empty; empty if there is
    none. *)
Definition first_line (s : jsstring) : jsstring :=
  match find truthy (Outline.lines_of s) with
  | Some l => l
  | None => []
  end.

End Lines.

(** ** What the uploader renders *)

Module UploaderView.
Import Uploader.

(** The attributes of an [img] element that the rule of lines 51-59
    reads; [None] is the [null] of [getAttribute]. *)
Record Img : Type := {
  alt : option jsstring;
  src : option jsstring;
  img_title : option jsstring
}.

(** [node.getAttribute(a) || ''] *)
Definition or_empty (a : option jsstring) : jsstring :=
  match a with
  | Some s => s
  | None => []
  end.

Definition quote : N := 34.

(** The [replacement] of the [images] rule. *)
Definition replacement (node : Img) : jsstring :=
  let alt := or_empty (alt node) in
  let src := or_empty (src node) in
  let title :=
    if truthy (or_empty (img_title node))
    then js " " ++ [quote] ++ or_empty (img_title node) ++ [quote]
    else [] in
  js "![" ++ alt ++ js "](" ++ src ++ title ++ js ")".

(** The fields of the form of lines 160-200. *)
Record Form : Type := {
  title_value : jsstring;
  markdown_value : jsstring;
  error_text : option jsstring;
  button_disabled : bool;
  button_label : jsstring
}.

(** What the component shows: the text of the upload box, and the form
    when there is one. *)
Record View : Type := {
  upload_text : jsstring;
  form : option Form
}.

Definition view (st : State) : View :=
  {| upload_text :=
       match file st with
       | Some f => name f
       | None => js "Click to upload HTML file"
       end;
     form :=
       if truthy (markdown st) then
         Some {| title_value := title (metadata st);
                 markdown_value := markdown st;
                 error_text :=
                   match error st with
                   | Some e => if truthy e then Some e else None
                   | None => None
                   end;
                 button_disabled := disabled st;
                 button_label :=
                   if isDeploying st then js "Deploying..."
                   else js "Deploy Post" |}
       else None |}.

Section WithLibs.
Context {L : Libs}.

(** [handleFileChange], lines 79-84; [files] is [event.target.files]. *)
Definition handleFileChange (files : option (list File)) (st : State)
  : State * bool :=
  match files with
  | Some (selectedFile :: _) => handleFileSelect selectedFile st
  | _ => (st, false)
  end.

(** What every state the page reaches keeps of its draft: the date of the
    mount, no featured image, an excerpt of at most 200 units. *)
Definition draft_kept (mountedAt : jsstring) (st : State) : Prop :=
  date (metadata st) = date_part mountedAt
  /\ featuredImage (metadata st) = []
  /\ List.length (excerpt (metadata st)) <= 200.

(** What every record the page inserts has. *)
Definition record_kept (mountedAt : jsstring) (p : Store.Row) : Prop :=
  Store.date p = date_part mountedAt
  /\ Store.featured_image p = None
  /\ List.length (Store.excerpt p) <= 200
  /\ Store.title p <> []
  /\ Store.content p <> []
  /\ Store.slug p = slugify (toLowerCase (Store.title p)).

End WithLibs.

End UploaderView.

(** A page that is mounted, is given a file, reads it, and submits. *)

Module DemoPage.
Import Uploader.

Definition mountedAt : jsstring := js "2024-01-01T10:00:00.000Z".
Definition submittedAt : jsstring := js "2024-01-03T09:00:00.000Z".

Definition html_file : File :=
  {| name := js "post.html"; type := js "text/html";
     text := Demo.hello_html |}.

Definition selected : World :=
  {| ui := fst (@handleFileSelect Demo.upload html_file
                  (ui (mounted mountedAt)));
     outstanding := []; issued := [] |}.

Definition loaded : World :=
  {| ui := @onload Demo.upload (text html_file) (ui selected);
     outstanding := []; issued := [] |}.

Definition submitting : World :=
  {| ui := setError None (setIsDeploying true (ui loaded));
     outstanding := [@payload Demo.upload submittedAt (ui loaded)];
     issued := [@payload Demo.upload submittedAt (ui loaded)] |}.



End DemoPage.

(** ** The [BlogPost] component *)

Module BlogPostView.
Import Markdown.

(** The featured image of lines 32-38, with its [src] and [alt], when it
    is rendered. *)
Definition featured (post : BlogPost) : option (jsstring * jsstring) :=
  match featuredImage post with
  | Some image => if truthy image then Some (image, title post) else None
  | None => None
  end.

(** The [__html] of line 59. *)
Definition inner_html (post : BlogPost) : jsstring := content post.

End BlogPostView.

(* ================================================================== *)
(** * Part II: properties *)
(* ================================================================== *)

(** ** Facts about strings *)

Module JSFacts.

Lemma eqb_eq (a b : jsstring) : JS.eqb a b = true <-> a = b.
Proof.
  unfold JS.eqb. destruct (list_eq_dec N.eq_dec a b); split; congruence.
Qed.

Lemma eqb_refl (a : jsstring) : JS.eqb a a = true.
Proof. now apply eqb_eq. Qed.

Lemma firstn_takeWhile (p : N -> bool) (s : jsstring) :
  firstn (List.length (takeWhile p s)) s = takeWhile p s.
Proof.
  induction s as [|c t IH]; simpl; [reflexivity|].
  destruct (p c); simpl; [now rewrite IH | reflexivity].
Qed.

Lemma dropWhile_head (p : N -> bool) (s : jsstring) (c : N) (t : jsstring) :
  dropWhile p s = c :: t -> p c = false.
Proof.
  induction s as [|u s IH]; simpl; [discriminate|].
  destruct (p u) eqn:E; [exact IH|].
  intros H; injection H as -> _. exact E.
Qed.

Lemma dropWhile_nil (p : N -> bool) (s : jsstring) :
  dropWhile p s = [] -> forallb p s = true.
Proof.
  induction s as [|u s IH]; simpl; [reflexivity|].
  destruct (p u); [exact IH | discriminate].
Qed.

Lemma terminator_is_space (c : N) :
  isLineTerminator c = true -> isSpace c = true.
Proof. unfold isSpace. now intros ->. Qed.

Lemma trim_nil : trim [] = [].
Proof. reflexivity. Qed.

Lemma trim_space (c : N) : isSpace c = true -> trim [c] = [].
Proof. intros H. unfold trim. simpl. now rewrite H. Qed.

Lemma truthy_false (s : jsstring) : truthy s = false <-> s = [].
Proof. destruct s; simpl; split; congruence. Qed.

End JSFacts.

(** ** What the two regular expressions find *)

Module RegexFacts.
Import Regex Uploader Outline JSFacts.

Lemma after_run_ahead p prev s i g :
  ahead (after_run p prev s i g) = dropWhile p s.
Proof.
  revert prev i; induction s as [|u t IH]; intros; simpl; [reflexivity|].
  destruct (p u); [apply IH | reflexivity].
Qed.

Lemma after_run_index p prev s i g :
  index (after_run p prev s i g) = i + List.length (takeWhile p s).
Proof.
  revert prev i; induction s as [|u t IH]; intros; simpl; [lia|].
  destruct (p u); simpl; [rewrite IH; lia | lia].
Qed.

Lemma after_run_group p prev s i g :
  group1 (after_run p prev s i g) = g.
Proof.
  revert prev i; induction s as [|u t IH]; intros; simpl; [reflexivity|].
  destruct (p u); [apply IH | reflexivity].
Qed.

(** A greedy iteration whose continuation accepts the longest run stops
    there. *)
Lemma star_greedy p k prev s i g r :
  k (after_run p prev s i g) = Some r ->
  star p k prev s i g = Some r.
Proof.
  revert prev i; induction s as [|u t IH]; intros prev i H; simpl in *.
  - exact H.
  - destruct (p u); [|exact H].
    now rewrite (IH _ _ H).
Qed.

(** [(.+)$]: from a unit that is not a line terminator, the group is the
    rest of the line. *)
Lemma line_group i0 s0 c :
  option_map group (exec (Seq (Grp (Plus inline)) Eol) (finish i0 s0) c)
  = match ahead c with
    | u :: _ => if inline u then Some (takeWhile inline (ahead c)) else None
    | [] => None
    end.
Proof.
  destruct c as [b a i g]. simpl.
  destruct a as [|u t]; [reflexivity|].
  destruct (inline u) eqn:Hu; [|reflexivity].
  erewrite star_greedy.
  2:{ simpl. unfold at_eol. rewrite after_run_ahead.
      destruct (dropWhile inline t) as [|v w] eqn:Hd.
      - reflexivity.
      - simpl. apply dropWhile_head in Hd. unfold inline in Hd.
        apply negb_false_iff in Hd. rewrite Hd. reflexivity. }
  unfold finish, group. simpl. rewrite after_run_index.
  replace (S i + List.length (takeWhile inline t) - i)
    with (S (List.length (takeWhile inline t))) by lia.
  simpl. now rewrite Hu, firstn_takeWhile.
Qed.

Lemma find_app_none {A} (p : A -> bool) (l l' : list A) :
  find p l = None -> find p (l ++ l') = find p l'.
Proof.
  induction l as [|a l IH]; simpl; [reflexivity|].
  destruct (p a); [discriminate | exact IH].
Qed.

Lemma find_app_some {A} (p : A -> bool) (l l' : list A) (a : A) :
  find p l = Some a -> find p (l ++ l') = Some a.
Proof.
  induction l as [|b l IH]; simpl; [discriminate|].
  destruct (p b); [trivial | exact IH].
Qed.

Lemma find_rev_none (p : N -> bool) (s : jsstring) :
  find p (rev s) = None -> forallb (fun c => negb (p c)) s = true.
Proof.
  intros H. apply forallb_forall. intros c Hc.
  apply in_rev in Hc.
  destruct (p c) eqn:E; [|reflexivity].
  now rewrite (find_none _ _ H c Hc) in E.
Qed.

Lemma takeWhile_none (p : N -> bool) (s : jsstring) :
  forallb (fun c => negb (p c)) s = true -> takeWhile p s = [].
Proof.
  destruct s as [|c t]; simpl; [reflexivity|].
  destruct (p c); [discriminate | reflexivity].
Qed.

(** [\s*(.+)$] after the mark: the group is the text of the heading. *)
Lemma heading_group i0 s0 rest prev i g :
  option_map group
    (star isSpace (exec (Seq (Grp (Plus inline)) Eol) (finish i0 s0))
       prev rest i g)
  = heading_text rest.
Proof.
  revert prev i. induction rest as [|u t IH]; intros prev i.
  - reflexivity.
  - cbn [star]. unfold heading_text. cbn [dropWhile rev].
    destruct (isSpace u) eqn:Hu.
    + specialize (IH (Some u) (S i)). unfold heading_text in IH.
      destruct (star isSpace _ (Some u) t (S i) g) as [r|] eqn:Hs.
      * rewrite IH.
        destruct (dropWhile isSpace t) as [|v w]; [|reflexivity].
        destruct (find inline (rev t)) as [c|] eqn:Hf; [|discriminate].
        now rewrite (find_app_some _ _ _ Hf).
      * simpl in IH.
        destruct (dropWhile isSpace t) as [|v w]; [|discriminate].
        destruct (find inline (rev t)) as [c|] eqn:Hf; [discriminate|].
        rewrite (find_app_none _ _ _ Hf), line_group. simpl.
        destruct (inline u); [|reflexivity].
        now rewrite (takeWhile_none _ _ (find_rev_none _ _ Hf)).
    + rewrite line_group. simpl.
      destruct (inline u) eqn:Hi; [reflexivity|].
      unfold inline in Hi. apply negb_false_iff in Hi.
      apply terminator_is_space in Hi. congruence.
Qed.

Lemma attempt_title prev s i :
  option_map group (attempt titleRe prev s i)
  = if line_start prev then
      match s with
      | u :: t => if N.eqb hash u then heading_text t else None
      | [] => None
      end
    else None.
Proof.
  unfold attempt, titleRe. cbn [exec before ahead index group1].
  unfold at_bol. cbn [before]. fold (line_start prev).
  destruct (line_start prev); [|reflexivity].
  destruct s as [|u t]; [reflexivity|].
  destruct (N.eqb hash u); [|reflexivity].
  apply heading_group.
Qed.

Lemma scan_without_mark prev s i :
  forallb (fun u => negb (N.eqb hash u)) s = true ->
  scan titleRe prev s i = None.
Proof.
  revert prev i. induction s as [|u t IH]; intros prev i H.
  - pose proof (attempt_title prev [] i) as A. simpl.
    destruct (attempt titleRe prev [] i); [|reflexivity].
    destruct (line_start prev); discriminate.
  - cbn [forallb] in H. apply andb_true_iff in H as [Hu Ht].
    pose proof (attempt_title prev (u :: t) i) as A. cbn [scan].
    destruct (attempt titleRe prev (u :: t) i).
    + apply negb_true_iff in Hu. rewrite Hu in A.
      destruct (line_start prev); discriminate.
    + now apply IH.
Qed.

Lemma heading_text_none rest :
  heading_text rest = None ->
  forallb (fun u => negb (N.eqb hash u)) rest = true.
Proof.
  unfold heading_text. intros H.
  destruct (dropWhile isSpace rest) eqn:Hd; [|discriminate].
  destruct (find inline (rev rest)) eqn:Hf; [discriminate|].
  apply find_rev_none in Hf.
  rewrite forallb_forall in *. intros c Hc. specialize (Hf c Hc).
  unfold inline in Hf. rewrite negb_involutive in Hf.
  destruct (N.eqb_spec hash c) as [<-|]; [discriminate | reflexivity].
Qed.

(** The title expression finds the first mark at a line start, and the
    text of that heading. *)
Lemma scan_title prev s i :
  option_map group (scan titleRe prev s i)
  = match line_start_suffix (N.eqb hash) prev s with
    | Some (_ :: rest) => heading_text rest
    | _ => None
    end.
Proof.
  revert prev i. induction s as [|u t IH]; intros prev i.
  - now rewrite scan_without_mark.
  - pose proof (attempt_title prev (u :: t) i) as A.
    cbn [scan line_start_suffix].
    destruct (attempt titleRe prev (u :: t) i) as [m|].
    + destruct (line_start prev); [|discriminate].
      destruct (N.eqb hash u); [|discriminate]. exact A.
    + destruct (line_start prev && N.eqb hash u) eqn:E.
      * apply andb_true_iff in E as [E1 E2]. rewrite E1, E2 in A.
        rewrite <- A.
        rewrite scan_without_mark; [reflexivity|].
        now apply heading_text_none.
      * apply IH.
Qed.

Lemma attempt_excerpt prev s i :
  option_map fst (attempt excerptRe prev s i)
  = if line_start prev then
      match s with
      | u :: _ => if plain u then Some (takeWhile plain s) else None
      | [] => None
      end
    else None.
Proof.
  change excerptRe with (Seq Bol (Plus plain)).
  unfold attempt. cbn [exec Plus before ahead index group1].
  unfold at_bol. cbn [before]. fold (line_start prev).
  destruct (line_start prev); [|reflexivity].
  destruct s as [|u t]; [reflexivity|].
  cbn [takeWhile].
  destruct (plain u) eqn:Hu; [|reflexivity].
  erewrite star_greedy by reflexivity.
  unfold finish. simpl. rewrite after_run_index.
  replace (S i + List.length (takeWhile plain t) - i)
    with (S (List.length (takeWhile plain t))) by lia.
  simpl. now rewrite firstn_takeWhile.
Qed.

(** The excerpt expression finds the first run of plain units that
    begins at a line start. *)
Lemma scan_excerpt prev s i :
  option_map fst (scan excerptRe prev s i)
  = option_map (takeWhile plain) (line_start_suffix plain prev s).
Proof.
  revert prev i. induction s as [|u t IH]; intros prev i.
  - pose proof (attempt_excerpt prev [] i) as A. simpl.
    destruct (attempt excerptRe prev [] i); [|reflexivity].
    destruct (line_start prev); discriminate.
  - pose proof (attempt_excerpt prev (u :: t) i) as A.
    cbn [scan line_start_suffix].
    destruct (attempt excerptRe prev (u :: t) i) as [m|].
    + destruct (line_start prev); [|discriminate].
      destruct (plain u); [|discriminate]. exact A.
    + destruct (line_start prev); [|apply IH].
      destruct (plain u); [discriminate | apply IH].
Qed.

End RegexFacts.

(** ** Upload conversion: the metadata heuristics *)

Module ExtractionProps.
Import Regex Uploader Outline JSFacts RegexFacts.

Lemma title_match_group md :
  option_map group (re_match titleRe md) = heading_capture md.
Proof.
  unfold re_match, heading_capture, heading_rest. rewrite scan_title.
  destruct (line_start_suffix (N.eqb hash) None md) as [[|u rest]|];
    reflexivity.
Qed.

Lemma heading_text_trim rest :
  match heading_text rest with
  | Some g => trim g
  | None => []
  end = trim (takeWhile inline (dropWhile isSpace rest)).
Proof.
  unfold heading_text.
  destruct (dropWhile isSpace rest) as [|v w] eqn:Hd; [|reflexivity].
  destruct (find inline (rev rest)) as [c|] eqn:Hf; [|reflexivity].
  simpl. apply trim_space.
  apply find_some in Hf as [Hin _]. apply in_rev in Hin.
  apply dropWhile_nil in Hd. rewrite forallb_forall in Hd. now apply Hd.
Qed.

(** What the updater of [handleFileSelect] computes, field by field. *)
Lemma extracted_fields {L : Libs} (md : jsstring) (prev : Metadata) :
  title (extracted md prev) = heading_title md
  /\ slug (extracted md prev)
     = match heading_capture md with
       | Some g => slugify (toLowerCase g)
       | None => []
       end
  /\ excerpt (extracted md prev) = slice0 200 (trim (plain_run md))
  /\ date (extracted md prev) = date prev
  /\ featuredImage (extracted md prev) = featuredImage prev.
Proof.
  unfold extracted. cbn [title slug excerpt date featuredImage].
  pose proof (title_match_group md) as T.
  split; [|split; [|split; [|split; reflexivity]]].
  - unfold heading_title.
    unfold heading_capture in T.
    destruct (re_match titleRe md) as [m|]; simpl in T.
    + destruct (heading_rest md) as [rest|]; [|discriminate].
      rewrite <- heading_text_trim, <- T. reflexivity.
    + destruct (heading_rest md) as [rest|]; [|reflexivity].
      rewrite <- heading_text_trim, <- T. reflexivity.
  - destruct (re_match titleRe md) as [m|]; simpl in T; now rewrite <- T.
  - unfold plain_run, re_match.
    pose proof (scan_excerpt None md 0) as E.
    destruct (scan excerptRe None md 0) as [m|]; simpl in E.
    + destruct (line_start_suffix plain None md); [|discriminate].
      simpl in E. now injection E as ->.
    + destruct (line_start_suffix plain None md); [discriminate|].
      reflexivity.
Qed.

(** C6, as amended. For every uploaded document, with [md] the text it
    converts to: [title] is the trimmed text that follows the first [#]
    standing at a line start and the white space after it, up to the end
    of that line, and empty when there is no such mark; [slug] is
    [slugify] of the lower-cased text captured there, untrimmed, and
    empty when nothing is captured; [excerpt] is the first run of
    characters other than [#] and LF that begins at a line start, trimmed
    and then cut to 200 characters, and empty when there is none. *)
Theorem onload_metadata {L : Libs} (htmlContent : jsstring) (st : State) :
  let md := turndown htmlContent in
  let m := metadata (onload htmlContent st) in
  markdown (onload htmlContent st) = md
  /\ title m = heading_title md
  /\ slug m = match heading_capture md with
              | Some g => slugify (toLowerCase g)
              | None => []
              end
  /\ excerpt m = slice0 200 (trim (plain_run md)).
Proof.
  cbn zeta. unfold onload. cbn [metadata markdown setMetadata setMarkdown].
  destruct (extracted_fields (turndown htmlContent) (metadata st))
    as (Ht & Hs & He & _).
  now rewrite Ht, Hs, He.
Qed.

(** C6 fails as stated: with a [#] inside the first body line the excerpt
    stops before it, where the line itself was promised. *)
Lemma excerpt_stops_at_hash :
  let md := js "# T" ++ [10; 10]%N ++ js "C# rocks" in
  let m := @extracted Demo.upload md
             (metadata (initial (js "2024-01-02T08:00:00.000Z"))) in
  excerpt m = js "C"
  /\ excerpt_by_lines md = js "C# rocks"
  /\ excerpt m <> excerpt_by_lines md.
Proof. vm_compute. repeat split; discriminate. Qed.

(** The fixture of the specification. *)
Example hello_fixture :
  let st := @onload Demo.upload Demo.hello_html
              (initial (js "2024-01-02T08:00:00.000Z")) in
  markdown st = js "# Hello" ++ [10; 10]%N ++ js "World"
  /\ title (metadata st) = js "Hello"
  /\ slug (metadata st) = js "hello"
  /\ excerpt (metadata st) = js "World".
Proof. vm_compute. repeat split. Qed.

End ExtractionProps.

(** ** Content resolution *)

Module ResolutionFacts.
Import Markdown Resolution JSFacts.

Section WithLibs.
Context {L : Libs}.

Lemma collect_returns markdownFiles posts log :
  exists log',
    collect markdownFiles posts log
    = (Returned
         (posts ++ List.map rendered_post (well_formed markdownFiles)),
       log').
Proof.
  revert posts log.
  induction markdownFiles as [|[path load] rest IH]; intros posts log.
  - exists log. simpl. unfold ret. now rewrite app_nil_r.
  - cbn [collect well_formed]. unfold bind at 1.
    unfold try_catch, bind, await, ret, console_error.
    destruct load as [content|e].
    + destruct (frontMatter content) as [[attributes body]|e].
      * destruct (IH (posts ++ [post_of_document attributes body]) log)
          as [log' ->].
        exists log'. cbn [List.map]. now rewrite <- app_assoc.
      * apply IH.
    + apply IH.
Qed.

Lemma search_returns slug markdownFiles log :
  exists log',
    search slug markdownFiles log
    = (Returned (local_match slug markdownFiles), log').
Proof.
  revert log.
  induction markdownFiles as [|[path load] rest IH]; intros log.
  - exists log. reflexivity.
  - cbn [search]. unfold local_match. cbn [well_formed].
    unfold bind at 1.
    unfold try_catch, bind, await, ret, console_error.
    destruct load as [content|e].
    + destruct (frontMatter content) as [[attributes body]|e].
      * cbn [find fst].
        destruct (JS.eqb (fm_slug attributes) slug).
        -- exists log. reflexivity.
        -- apply IH.
      * apply IH.
    + apply IH.
Qed.

(** [getAllPosts] always returns, and what. *)
Lemma getAllPosts_returns query markdownFiles log :
  exists log',
    getAllPosts query markdownFiles log
    = (Returned (resolved_posts query markdownFiles), log').
Proof.
  unfold getAllPosts, resolved_posts, remote_rows.
  unfold try_catch, bind at 1, await.
  destruct query as [r|e].
  - unfold bind at 1.
    assert (exists log1,
               match Store.error r with
               | Some supabaseError =>
                   console_error (js "Supabase fetch error:") supabaseError
               | None => ret tt
               end log = (Returned tt, log1)) as [log1 ->].
    { destruct (Store.error r); eexists; reflexivity. }
    destruct (Store.data r) as [[|row rows]|].
    + destruct (collect_returns markdownFiles [] log1) as [log2 H].
      unfold bind. rewrite H. exists log2. reflexivity.
    + eexists. reflexivity.
    + destruct (collect_returns markdownFiles [] log1) as [log2 H].
      unfold bind. rewrite H. exists log2. reflexivity.
  - eexists. reflexivity.
Qed.

(** [getPostBySlug] always returns, and what. *)
Lemma getPostBySlug_returns slug query markdownFiles log :
  exists log',
    getPostBySlug slug query markdownFiles log
    = (Returned (resolved_post slug query markdownFiles), log').
Proof.
  unfold getPostBySlug, resolved_post.
  unfold try_catch, bind at 1, await.
  destruct query as [r|e].
  - unfold bind at 1.
    assert (exists log1,
               match Store.error r with
               | Some supabaseError =>
                   console_error (js "Supabase fetch error:") supabaseError
               | None => ret tt
               end log = (Returned tt, log1)) as [log1 ->].
    { destruct (Store.error r); eexists; reflexivity. }
    destruct (Store.data r) as [row|].
    + eexists. reflexivity.
    + destruct (search_returns slug markdownFiles log1) as [log2 H].
      rewrite H. exists log2. reflexivity.
  - eexists. reflexivity.
Qed.

(** The sort keeps the elements. *)
Lemma insert_perm c x l : Permutation (insert c x l) (x :: l).
Proof.
  induction l as [|y t IH]; simpl; [reflexivity|].
  destruct (negative (c y x)); [|reflexivity].
  rewrite IH. apply perm_swap.
Qed.

Lemma sort_perm c l : Permutation (sort c l) l.
Proof.
  induction l as [|x t IH]; simpl; [reflexivity|].
  rewrite insert_perm. now constructor.
Qed.

Lemma not_older_trans a b c :
  not_older a b -> not_older b c -> not_older a c.
Proof.
  intros (ta & tb & Ha & Hb & H1) (tb' & tc & Hb' & Hc & H2).
  exists ta, tc. repeat split; try assumption.
  rewrite Hb in Hb'. injection Hb' as <-. lia.
Qed.

Lemma insert_sorted x l :
  dated x -> Forall dated l ->
  StronglySorted not_older l ->
  StronglySorted not_older (insert by_date x l).
Proof.
  intros Hx Hl Hs. induction Hs as [|y t Hs IH Hy]; simpl.
  - repeat constructor.
  - inversion Hl as [|? ? Hdy Hdt]; subst.
    unfold dated in Hx, Hdy.
    destruct (getTime (date x)) as [tx|] eqn:Ex; [|congruence].
    destruct (getTime (date y)) as [ty|] eqn:Ey; [|congruence].
    unfold by_date. rewrite Ex, Ey. cbn [negative].
    destruct (Z.ltb_spec (tx - ty) 0) as [Hlt|Hge].
    + constructor; [now apply IH|].
      apply (Permutation_Forall (Permutation_sym (insert_perm by_date x t))).
      constructor; [|assumption].
      exists ty, tx. repeat split; try assumption. lia.
    + assert (not_older x y) as Hxy.
      { exists tx, ty. repeat split; try assumption. lia. }
      constructor; [now constructor|].
      constructor; [assumption|].
      eapply Forall_impl; [|exact Hy].
      intros z Hz. now apply not_older_trans with y.
Qed.

Lemma sort_sorted l :
  Forall dated l -> StronglySorted not_older (sort by_date l).
Proof.
  induction 1 as [|x t Hx Ht IH]; simpl; [constructor|].
  apply insert_sorted; [assumption| |assumption].
  now apply (Permutation_Forall (Permutation_sym (sort_perm by_date t))).
Qed.

Lemma not_olderb_spec a b : not_older a b -> not_olderb a b = true.
Proof.
  intros (ta & tb & Ha & Hb & H). unfold not_olderb.
  rewrite Ha, Hb. now apply Z.leb_le.
Qed.

Lemma sorted_newest_first l :
  StronglySorted not_older l -> newest_first l = true.
Proof.
  induction 1 as [|a t Hs IH Ha]; [reflexivity|].
  destruct t as [|b t']; [reflexivity|].
  change (newest_first (a :: b :: t'))
    with (not_olderb a b && newest_first (b :: t')).
  rewrite IH, andb_true_r.
  apply not_olderb_spec. now inversion Ha.
Qed.

Lemma rendered_from_document markdownFiles d :
  In d (well_formed markdownFiles) ->
  from_document markdownFiles (rendered_post d).
Proof.
  destruct d as [attributes body]. intros H.
  exists attributes, body. now repeat split.
Qed.

End WithLibs.

End ResolutionFacts.

Module ResolutionProps.
Import Markdown Resolution JSFacts ResolutionFacts.

(** C2, as amended. Fetching all posts always returns a list. When the
    store delivered rows, the list is those rows in the order the store
    delivered them, which the query asks to be by [created_at]
    descending, not by [date]. Otherwise the list is sorted by [date],
    newest first, provided the date of every returned post parses. *)
Theorem all_posts_order {L : Libs}
        (query : Outcome (Store.Response (list Store.Row)))
        (markdownFiles : MarkdownFiles) (log : Console) :
  exists posts log',
    getAllPosts query markdownFiles log = (Returned posts, log') /\
    match remote_rows query with
    | Some rows => posts = List.map post_of_row rows
    | None =>
        Forall dated posts ->
        StronglySorted not_older posts /\ newest_first posts = true
    end.
Proof.
  destruct (getAllPosts_returns query markdownFiles log) as [log' E].
  exists (resolved_posts query markdownFiles), log'. split; [exact E|].
  unfold resolved_posts.
  destruct query as [r|e].
  - destruct (remote_rows (Returned r)) as [rows|]; [reflexivity|].
    intros Hd.
    assert (StronglySorted not_older
              (sort by_date
                 (List.map rendered_post (well_formed markdownFiles)))) as Hs.
    { apply sort_sorted.
      now apply (Permutation_Forall (sort_perm by_date _)). }
    split; [exact Hs | now apply sorted_newest_first].
  - simpl. intros _. split; [constructor | reflexivity].
Qed.

Lemma all_posts_order_witness :
  exists posts,
    run (@getAllPosts Demo.read Demo.no_rows Demo.files) = Returned posts /\
    List.length posts = 2 /\
    StronglySorted (@not_older Demo.read) posts.
Proof.
  destruct (@all_posts_order Demo.read Demo.no_rows Demo.files [])
    as (posts & log' & E & H).
  exists posts. split; [unfold run; now rewrite E|].
  vm_compute in E. injection E as <- _.
  split; [reflexivity|].
  apply H. repeat constructor; vm_compute; discriminate.
Defined.

(** C2 fails as stated: two records that the uploader wrote, delivered in
    the order the query asks for, come back oldest [date] first. *)
Lemma remote_posts_not_by_date :
  Store.created_at_descending [Demo.row_late; Demo.row_early] = true
  /\ exists posts,
       run (@getAllPosts Demo.read Demo.two_rows Demo.files) = Returned posts
       /\ List.map date posts = [js "2024-01-01"; js "2024-01-02"]
       /\ @newest_first Demo.read posts = false.
Proof.
  split; [reflexivity|].
  eexists. split; [vm_compute; reflexivity|].
  split; reflexivity.
Qed.

(** C3. Neither read operation raises. Fetching all posts returns a list
    for every input, and the empty list when the query itself throws;
    fetching one post returns a post or "not found" for every input, and
    "not found" when the store delivers no record and no local document
    that parses carries the slug. *)
Theorem reads_never_raise {L : Libs}
        (queryAll : Outcome (Store.Response (list Store.Row)))
        (queryOne : Outcome (Store.Response Store.Row))
        (slug : jsstring) (markdownFiles : MarkdownFiles) (log : Console) :
  (exists posts log',
      getAllPosts queryAll markdownFiles log = (Returned posts, log'))
  /\ (forall e,
        fst (getAllPosts (Thrown e) markdownFiles log) = Returned [])
  /\ (exists found log',
        getPostBySlug slug queryOne markdownFiles log
        = (Returned found, log'))
  /\ ((forall r, queryOne = Returned r -> Store.data r = None) ->
      local_match slug markdownFiles = None ->
      fst (getPostBySlug slug queryOne markdownFiles log) = Returned None).
Proof.
  split; [|split; [|split]].
  - destruct (getAllPosts_returns queryAll markdownFiles log) as [log' E].
    eauto.
  - intros e.
    destruct (getAllPosts_returns (Thrown e) markdownFiles log) as [log' E].
    now rewrite E.
  - destruct (getPostBySlug_returns slug queryOne markdownFiles log)
      as [log' E].
    eauto.
  - intros Hremote Hlocal.
    destruct (getPostBySlug_returns slug queryOne markdownFiles log)
      as [log' E].
    rewrite E. cbn [fst]. f_equal. unfold resolved_post.
    destruct queryOne as [r|e]; [|reflexivity].
    now rewrite (Hremote r eq_refl).
Qed.

Lemma reads_never_raise_witness :
  run (@getPostBySlug Demo.read (js "absent") Demo.no_row Demo.files)
  = Returned None.
Proof.
  apply (@reads_never_raise Demo.read Demo.no_rows Demo.no_row
           (js "absent") Demo.files []).
  - intros r H. injection H as <-. reflexivity.
  - vm_compute. reflexivity.
Defined.

(** C4, as amended. Every post that either read operation returns copies
    [title], [date] and [slug] from its source, a row that the store
    delivered or the header of a local document that parses, whether or
    not they are empty; a post made from a local document has the
    rendered and sanitized body as its [content]. *)
Theorem returned_posts_copy_their_source {L : Libs}
        (queryAll : Outcome (Store.Response (list Store.Row)))
        (queryOne : Outcome (Store.Response Store.Row))
        (slug : jsstring) (markdownFiles : MarkdownFiles) (log : Console) :
  (exists posts log',
      getAllPosts queryAll markdownFiles log = (Returned posts, log') /\
      Forall (fun p =>
                match remote_rows queryAll with
                | Some rows => from_row rows p
                | None => from_document markdownFiles p
                end) posts)
  /\ (exists found log',
        getPostBySlug slug queryOne markdownFiles log
        = (Returned found, log') /\
        match found with
        | Some p =>
            (exists r row, queryOne = Returned r /\
                           Store.data r = Some row /\ from_row [row] p)
            \/ from_document markdownFiles p
        | None => True
        end).
Proof.
  split.
  - destruct (getAllPosts_returns queryAll markdownFiles log) as [log' E].
    exists (resolved_posts queryAll markdownFiles), log'.
    split; [exact E|]. unfold resolved_posts.
    destruct queryAll as [r|e]; [|constructor].
    destruct (remote_rows (Returned r)) as [rows|].
    + apply Forall_forall. intros p Hp.
      apply in_map_iff in Hp as (row & <- & Hrow).
      exists row. now repeat split.
    + apply (Permutation_Forall (Permutation_sym (sort_perm by_date _))).
      apply Forall_forall. intros p Hp.
      apply in_map_iff in Hp as (d & <- & Hd).
      now apply rendered_from_document.
  - destruct (getPostBySlug_returns slug queryOne markdownFiles log)
      as [log' E].
    exists (resolved_post slug queryOne markdownFiles), log'.
    split; [exact E|]. unfold resolved_post.
    destruct queryOne as [r|e]; [|exact I].
    destruct (Store.data r) as [row|] eqn:Hdata.
    + left. exists r, row. repeat split; try assumption.
      exists row. repeat split. now left.
    + unfold local_match.
      destruct (find _ (well_formed markdownFiles)) as [d|] eqn:Hf;
        [|exact I].
      right. apply rendered_from_document.
      now apply find_some in Hf as [Hin _].
Qed.

(** C4 fails as stated: a local document whose header has no title is
    returned with an empty [title]. *)
Lemma returned_title_may_be_empty :
  exists p,
    run (@getAllPosts Demo.read Demo.no_rows Demo.untitled) = Returned [p]
    /\ title p = []
    /\ filled p = false.
Proof. eexists. split; [vm_compute; reflexivity|]. split; reflexivity. Qed.

(** C5. On the local path, fetching all posts returns exactly one post
    for each document that loads and parses, and none for the others; the
    [content] of such a post is the body rendered by [marked.parse] and
    then sanitized by [DOMPurify.sanitize]. Fetching one post on the
    local path returns the first such document whose header carries the
    slug, rendered and sanitized in the same way. *)
Theorem local_documents_rendered {L : Libs}
        (queryAll : Outcome (Store.Response (list Store.Row)))
        (queryOne : Outcome (Store.Response Store.Row))
        (slug : jsstring) (markdownFiles : MarkdownFiles) (log : Console) :
  (falls_back queryAll = true ->
   exists posts log',
     getAllPosts queryAll markdownFiles log = (Returned posts, log') /\
     Permutation posts
       (List.map (fun d => post_of_document (fst d) (snd d))
                 (well_formed markdownFiles)))
  /\ (forall attributes body,
        content (post_of_document attributes body)
        = sanitize (marked_parse body))
  /\ (forall r, queryOne = Returned r -> Store.data r = None ->
      exists log',
        getPostBySlug slug queryOne markdownFiles log
        = (Returned
             (option_map (fun d => post_of_document (fst d) (snd d))
                (find (fun d => JS.eqb (fm_slug (fst d)) slug)
                      (well_formed markdownFiles))),
           log')).
Proof.
  split; [|split].
  - intros Hfb.
    destruct (getAllPosts_returns queryAll markdownFiles log) as [log' E].
    exists (resolved_posts queryAll markdownFiles), log'.
    split; [exact E|]. unfold resolved_posts.
    destruct queryAll as [r|e]; [|discriminate].
    unfold remote_rows. simpl in Hfb.
    destruct (Store.data r) as [[|row rows]|]; try discriminate;
      apply sort_perm.
  - reflexivity.
  - intros r -> Hdata.
    destruct (getPostBySlug_returns slug (Returned r) markdownFiles log)
      as [log' E].
    exists log'. rewrite E. unfold resolved_post. now rewrite Hdata.
Qed.

Lemma local_documents_rendered_witness :
  (exists posts,
      run (@getAllPosts Demo.read Demo.no_rows Demo.files) = Returned posts
      /\ List.map title posts = [js "Newer"; js "Older"]
      /\ List.map content posts
         = [js "<p>second body</p>" ++ Demo.LF;
            js "<p>first body</p>" ++ Demo.LF])
  /\ (exists post,
        run (@getPostBySlug Demo.read (js "newer") Demo.no_row Demo.files)
        = Returned (Some post)
        /\ content post = js "<p>second body</p>" ++ Demo.LF).
Proof.
  destruct (@local_documents_rendered Demo.read Demo.no_rows Demo.no_row
              (js "newer") Demo.files []) as (H & _ & H').
  split.
  - destruct (H eq_refl) as (posts & log' & E & _).
    exists posts. split; [unfold run; now rewrite E|].
    vm_compute in E. injection E as <- _. split; reflexivity.
  - destruct (H' _ eq_refl eq_refl) as (log' & E).
    eexists. unfold run. rewrite E. split; vm_compute; reflexivity.
Defined.

End ResolutionProps.

(** ** Upload conversion: selection and submission *)

Module UploaderProps.
Import Uploader.

Section WithLibs.
Context {L : Libs}.

Lemma deploy_begin_valid now st :
  truthy (title (metadata st)) = true ->
  truthy (markdown st) = true ->
  deploy_begin now st
  = (setError None (setIsDeploying true st),
     [Insert (payload now st)], Some (payload now st)).
Proof. intros Ht Hm. unfold deploy_begin. now rewrite Ht, Hm. Qed.

Lemma deploy_begin_invalid now st :
  title (metadata st) = [] \/ markdown st = [] ->
  deploy_begin now st
  = (failed (js "Title and content are required")
       (setError None (setIsDeploying true st)),
     [ConsoleError (js "Deployment error:")
        (js "Title and content are required")],
     None).
Proof.
  intros H. unfold deploy_begin.
  destruct H as [H|H]; rewrite H; simpl; [reflexivity|].
  now rewrite orb_true_r.
Qed.

End WithLibs.

(** C7. Submitting a draft whose title or body is empty ends with the
    message "Title and content are required" in the [error] state for the
    page to show, issues no insert, whatever the store would have
    answered, and leaves the file, the body and the metadata of the
    draft as they were. *)
Theorem empty_draft_rejected {L : Libs} (now : jsstring)
        (insert : Store.Row -> Outcome (Store.Response (list Store.Row)))
        (st : State) :
  title (metadata st) = [] \/ markdown st = [] ->
  exists st',
    handleDeploy now insert st
    = (st', [ConsoleError (js "Deployment error:")
               (js "Title and content are required")])
    /\ snd (deploy_begin now st) = None
    /\ error st' = Some (js "Title and content are required")
    /\ isDeploying st' = false
    /\ metadata st' = metadata st
    /\ markdown st' = markdown st
    /\ file st' = file st.
Proof.
  intros H. unfold handleDeploy.
  rewrite (deploy_begin_invalid now st H).
  eexists. split; [reflexivity|]. repeat split.
Qed.

Lemma empty_draft_rejected_witness :
  exists st',
    fst (@handleDeploy Demo.upload (js "2024-01-03T09:00:00.000Z")
           (fun _ => Thrown (js "unreachable"))
           (initial (js "2024-01-01T10:00:00.000Z"))) = st'
    /\ error st' = Some (js "Title and content are required").
Proof.
  destruct (@empty_draft_rejected Demo.upload (js "2024-01-03T09:00:00.000Z")
              (fun _ => Thrown (js "unreachable"))
              (initial (js "2024-01-01T10:00:00.000Z")))
    as (st' & E & _ & Herr & _).
  - left. reflexivity.
  - exists st'. rewrite E. split; [reflexivity | exact Herr].
Defined.

(** C8, as amended. For every draft with a title and a body, submission
    issues exactly one insert before anything else, and the record it
    inserts has: [slug] computed anew from the current title; the title,
    the date and the body of the draft; [excerpt] equal to the excerpt
    field, or to the first 200 characters of the body when that field is
    empty; [featured_image] absent when the field is empty; and
    [created_at] equal to the reading of the submitting browser's own
    clock. *)
Theorem submitted_record {L : Libs} (now : jsstring)
        (insert : Store.Row -> Outcome (Store.Response (list Store.Row)))
        (st : State) :
  title (metadata st) <> [] -> markdown st <> [] ->
  exists st' p rest,
    handleDeploy now insert st = (st', Insert p :: rest)
    /\ (forall q, In (Insert q) rest -> False)
    /\ Store.slug p = slugify (toLowerCase (title (metadata st)))
    /\ Store.title p = title (metadata st)
    /\ Store.date p = date (metadata st)
    /\ Store.content p = markdown st
    /\ Store.excerpt p
       = match excerpt (metadata st) with
         | [] => slice0 200 (markdown st)
         | _ :: _ => excerpt (metadata st)
         end
    /\ Store.featured_image p
       = match featuredImage (metadata st) with
         | [] => None
         | _ :: _ => Some (featuredImage (metadata st))
         end
    /\ Store.created_at p = now.
Proof.
  intros Ht Hm. unfold handleDeploy.
  rewrite deploy_begin_valid
    by (destruct (title (metadata st)), (markdown st); simpl; congruence).
  destruct (deploy_settle (payload now st) (insert (payload now st))
              (setError None (setIsDeploying true st)))
    as [st2 effects'] eqn:E.
  exists st2, (payload now st), effects'. split; [reflexivity|].
  split.
  - intros q Hq. unfold deploy_settle in E.
    destruct (match insert (payload now st) with
              | Returned r => Store.error r
              | Thrown e => Some e
              end); injection E as _ <-;
      destruct Hq as [Hq|[]]; discriminate.
  - cbn [payload Store.slug Store.title Store.date Store.content
           Store.excerpt Store.featured_image Store.created_at].
    repeat split; unfold or_else;
      [destruct (excerpt (metadata st))
      | destruct (featuredImage (metadata st))];
      reflexivity.
Qed.

Lemma submitted_record_witness :
  exists p rest,
    snd (@handleDeploy Demo.upload (js "2024-01-03T09:00:00.000Z")
           (fun p => Returned {| Store.data := Some [p];
                                 Store.error := None |})
           (Demo.draft (js "2024-01-01T10:00:00.000Z") Demo.hello_html))
    = Insert p :: rest
    /\ Store.slug p = js "hello"
    /\ Store.excerpt p = js "World"
    /\ Store.featured_image p = None
    /\ Store.created_at p = js "2024-01-03T09:00:00.000Z".
Proof.
  destruct (@submitted_record Demo.upload (js "2024-01-03T09:00:00.000Z")
              (fun p => Returned {| Store.data := Some [p];
                                    Store.error := None |})
              (Demo.draft (js "2024-01-01T10:00:00.000Z") Demo.hello_html))
    as (st' & p & rest & E & _ & Hs & _ & _ & _ & He & Hf & Hc).
  - vm_compute. discriminate.
  - vm_compute. discriminate.
  - exists p, rest. rewrite E. split; [reflexivity|].
    rewrite Hs, He, Hf, Hc. vm_compute. repeat split.
Defined.

(** C8 fails as stated: the creation timestamp of the record is not
    assigned by the server. The same draft submitted from a browser whose
    clock reads 1999 and from one whose clock reads 2024 inserts two
    different [created_at] values, each the reading of that clock. *)
Lemma created_at_is_the_browser_clock :
  let st := Demo.draft (js "2024-01-01T10:00:00.000Z") Demo.hello_html in
  let answer := fun p : Store.Row =>
    Returned {| Store.data := Some [p]; Store.error := None |} in
  let sent now :=
    match snd (@handleDeploy Demo.upload now answer st) with
    | Insert p :: _ => Some (Store.created_at p)
    | _ => None
    end in
  sent (js "1999-12-31T23:59:59.000Z") = Some (js "1999-12-31T23:59:59.000Z")
  /\ sent (js "2024-01-03T09:00:00.000Z")
     = Some (js "2024-01-03T09:00:00.000Z")
  /\ sent (js "1999-12-31T23:59:59.000Z")
     <> sent (js "2024-01-03T09:00:00.000Z").
Proof. vm_compute. repeat split. discriminate. Qed.

(** C9 fails as stated: on a page mounted at 23:50 on 1 January, a file
    selected at 00:10 on 2 January leaves the draft dated 1 January. *)
Lemma date_is_not_the_selection_date :
  let mountedAt := js "2024-01-01T23:50:00.000Z" in
  let selectedAt := js "2024-01-02T00:10:00.000Z" in
  let f := {| name := js "post.html"; type := js "text/html";
              text := Demo.hello_html |} in
  let st' := @fileSelected Demo.upload f (initial mountedAt) in
  @accepted Demo.upload f = true
  /\ date (metadata st') = js "2024-01-01"
  /\ date_part selectedAt = js "2024-01-02"
  /\ date (metadata st') <> date_part selectedAt.
Proof. vm_compute. repeat split. discriminate. Qed.

End UploaderProps.

(** ** From the write path to the read path *)

Module RoundTrip.
Import Markdown.

(** C1, evaluated where it fails. Whatever the draft was before, once
    its title is edited to "Hi" and its body to a script element, it is
    inserted with that body, unrendered and unsanitized, as its [content],
    whatever the libraries are; and both read operations hand that
    [content] on unchanged when the store delivers the record. *)
Theorem uploaded_content_is_raw {U : Uploader.Libs} {R : Libs}
        (before : Uploader.State) (now : jsstring)
        (markdownFiles : MarkdownFiles) (log : Console) :
  let raw := js "<script>alert(1)</script>" in
  let st := Uploader.markdownChanged raw
              (Uploader.titleChanged (js "Hi") before) in
  let answer := fun p : Store.Row =>
    Returned {| Store.data := Some [p]; Store.error := None |} in
  exists st' p rest,
    Uploader.handleDeploy now answer st = (st', Uploader.Insert p :: rest)
    /\ Store.content p = raw
    /\ (exists post log',
          getAllPosts (answer p) markdownFiles log = (Returned [post], log')
          /\ content post = raw)
    /\ (exists post log',
          getPostBySlug (Store.slug p)
            (Returned {| Store.data := Some p; Store.error := None |})
            markdownFiles log
          = (Returned (Some post), log')
          /\ content post = raw).
Proof.
  cbn zeta. do 3 eexists.
  split; [reflexivity|]. split; [reflexivity|].
  split; do 2 eexists; split; reflexivity.
Qed.

End RoundTrip.

(** ** Content resolution: more of what the code shows *)

Module ConsoleFacts.
Import Markdown Resolution Diagnostics JSFacts ResolutionFacts.

Section WithLibs.
Context {L : Libs}.

Lemma collect_console markdownFiles posts log :
  collect markdownFiles posts log
  = (Returned (posts ++ List.map rendered_post (well_formed markdownFiles)),
     log ++ failures markdownFiles).
Proof.
  revert posts log.
  induction markdownFiles as [|[path load] rest IH]; intros posts log.
  - simpl. unfold ret. now rewrite !app_nil_r.
  - cbn [collect well_formed failures]. unfold thrown_by, bind at 1.
    unfold try_catch, bind, await, ret, console_error.
    destruct load as [content|e].
    + destruct (frontMatter content) as [[attributes body]|e].
      * rewrite IH. cbn [List.map]. now rewrite <- app_assoc.
      * rewrite IH. now rewrite <- app_assoc.
    + rewrite IH. now rewrite <- app_assoc.
Qed.

Lemma search_console slug markdownFiles log :
  search slug markdownFiles log
  = (Returned (local_match slug markdownFiles),
     log ++ failures (before_match slug markdownFiles)).
Proof.
  revert log.
  induction markdownFiles as [|[path load] rest IH]; intros log.
  - simpl. unfold ret. now rewrite app_nil_r.
  - cbn [search]. unfold local_match.
    cbn [well_formed before_match]. unfold carries.
    unfold bind at 1.
    unfold try_catch, bind, await, ret, console_error.
    destruct load as [content|e].
    + destruct (frontMatter content) as [[attributes body]|e] eqn:Hfm.
      * cbn [find fst].
        destruct (JS.eqb (fm_slug attributes) slug).
        -- cbn [failures option_map]. now rewrite app_nil_r.
        -- rewrite IH. cbn [failures]. unfold thrown_by at 1.
           now rewrite Hfm.
      * rewrite IH. cbn [failures]. unfold thrown_by at 1. rewrite Hfm.
        now rewrite <- app_assoc.
    + rewrite IH. cbn [failures]. unfold thrown_by at 1.
      now rewrite <- app_assoc.
Qed.

Lemma query_line_run {A} (r : Store.Response A) log :
  match Store.error r with
  | Some supabaseError =>
      console_error (js "Supabase fetch error:") supabaseError
  | None => ret tt
  end log = (Returned tt, log ++ query_line r).
Proof.
  unfold query_line. destruct (Store.error r); simpl.
  - reflexivity.
  - unfold ret. now rewrite app_nil_r.
Qed.

(** [getAllPosts], its result and its console, case by case. *)
Lemma getAllPosts_runs query markdownFiles log :
  getAllPosts query markdownFiles log
  = match query with
    | Thrown e =>
        (Returned [],
         log ++ [{| label := js "Error fetching blog posts:"; detail := e |}])
    | Returned r =>
        match remote_rows query with
        | Some rows => (Returned (List.map post_of_row rows),
                        log ++ query_line r)
        | None =>
            (Returned
               (sort by_date
                  (List.map rendered_post (well_formed markdownFiles))),
             (log ++ query_line r) ++ failures markdownFiles)
        end
    end.
Proof.
  unfold getAllPosts, remote_rows.
  unfold try_catch, bind at 1, await.
  destruct query as [r|e]; [|reflexivity].
  unfold bind at 1. rewrite query_line_run.
  destruct (Store.data r) as [[|row rows]|]; try reflexivity;
    unfold bind; now rewrite collect_console.
Qed.

(** [getPostBySlug], its result and its console, case by case. *)
Lemma getPostBySlug_runs slug query markdownFiles log :
  getPostBySlug slug query markdownFiles log
  = match query with
    | Thrown e =>
        (Returned None,
         log ++ [{| label := js "Error fetching blog post:"; detail := e |}])
    | Returned r =>
        match Store.data r with
        | Some row => (Returned (Some (post_of_row row)), log ++ query_line r)
        | None =>
            (Returned (local_match slug markdownFiles),
             (log ++ query_line r)
             ++ failures (before_match slug markdownFiles))
        end
    end.
Proof.
  unfold getPostBySlug.
  unfold try_catch, bind at 1, await.
  destruct query as [r|e]; [|reflexivity].
  unfold bind at 1. rewrite query_line_run.
  destruct (Store.data r) as [row|]; [reflexivity|].
  now rewrite search_console.
Qed.

Lemma local_match_slug slug markdownFiles p :
  local_match slug markdownFiles = Some p ->
  Markdown.slug p = slug
  /\ In p (List.map rendered_post (well_formed markdownFiles)).
Proof.
  unfold local_match. intros H.
  destruct (find _ (well_formed markdownFiles)) as [d|] eqn:Hf;
    [|discriminate].
  injection H as <-. apply find_some in Hf as [Hin Heq].
  split; [now apply eqb_eq in Heq | now apply in_map].
Qed.

Lemma local_match_found slug markdownFiles d :
  In d (well_formed markdownFiles) ->
  fm_slug (fst d) = slug ->
  exists p, local_match slug markdownFiles = Some p.
Proof.
  intros Hin Hs. unfold local_match.
  destruct (find (fun d0 => JS.eqb (fm_slug (fst d0)) slug)
                 (well_formed markdownFiles)) as [d'|] eqn:Hf.
  - eexists. reflexivity.
  - pose proof (find_none _ _ Hf d Hin) as Hn. cbn beta in Hn.
    rewrite Hs, eqb_refl in Hn. discriminate.
Qed.

(** Sorting leaves a list alone that is newest first already. *)
Lemma sort_sorted_id l :
  StronglySorted not_older l -> sort by_date l = l.
Proof.
  induction 1 as [|x t Hs IH Hx]; [reflexivity|].
  simpl. rewrite IH.
  destruct t as [|y t']; [reflexivity|].
  inversion Hx as [|? ? (tx & ty & Ex & Ey & Hle) _]; subst.
  simpl. unfold by_date. rewrite Ex, Ey. cbn [negative].
  destruct (Z.ltb_spec (tx - ty) 0); [lia | reflexivity].
Qed.

End WithLibs.

End ConsoleFacts.

Module ResolutionMore.
Import Markdown Resolution Diagnostics JSFacts ResolutionFacts ConsoleFacts.

(** X1. A response with an empty list of rows and a response with no data
    give the same posts, whether or not either response carries an error
    and whatever was logged before; these posts are the ones the local
    documents that load and parse give, each once. *)
Theorem empty_data_is_no_data {L : Libs} (e1 e2 : option Err)
        (markdownFiles : MarkdownFiles) (log1 log2 : Console) :
  fst (getAllPosts
         (Returned {| Store.data := Some []; Store.error := e1 |})
         markdownFiles log1)
  = fst (getAllPosts
           (Returned {| Store.data := None; Store.error := e2 |})
           markdownFiles log2)
  /\ exists posts,
       fst (getAllPosts
              (Returned {| Store.data := None; Store.error := e2 |})
              markdownFiles log2) = Returned posts
       /\ Permutation posts
            (List.map (fun d => post_of_document (fst d) (snd d))
                      (well_formed markdownFiles)).
Proof.
  rewrite !getAllPosts_runs. split; [reflexivity|].
  eexists. split; [reflexivity|]. apply sort_perm.
Qed.

(** X2. When the store delivers a record, the local documents play no
    part: fetching all posts returns the delivered rows in their order and
    logs at most the error of the response, and fetching one post returns
    the delivered row, even when its slug is not the one asked for; no
    document is loaded and none is logged. *)
Theorem remote_answer_wins {L : Libs}
        (rAll : Store.Response (list Store.Row))
        (rOne : Store.Response Store.Row)
        (row : Store.Row) (rows : list Store.Row) (slug : jsstring)
        (markdownFiles : MarkdownFiles) (log : Console) :
  Store.data rAll = Some (row :: rows) ->
  Store.data rOne = Some row ->
  getAllPosts (Returned rAll) markdownFiles log
  = (Returned (List.map post_of_row (row :: rows)), log ++ query_line rAll)
  /\ getPostBySlug slug (Returned rOne) markdownFiles log
     = (Returned (Some (post_of_row row)), log ++ query_line rOne).
Proof.
  intros HA HO. rewrite getAllPosts_runs, getPostBySlug_runs.
  unfold remote_rows. now rewrite HA, HO.
Qed.

Lemma remote_answer_wins_witness :
  run (@getPostBySlug Demo.read (js "no-such-slug")
         (Returned {| Store.data := Some Demo.row_late;
                      Store.error := None |}) Demo.files)
  = Returned (Some (@post_of_row Demo.row_late))
  /\ Store.slug Demo.row_late = js "hello".
Proof.
  split; [|reflexivity].
  destruct (@remote_answer_wins Demo.read
              {| Store.data := Some [Demo.row_late; Demo.row_early];
                 Store.error := None |}
              {| Store.data := Some Demo.row_late; Store.error := None |}
              Demo.row_late [Demo.row_early] (js "no-such-slug")
              Demo.files [] eq_refl eq_refl) as [_ H].
  unfold run. now rewrite H.
Defined.

(** X3. A query that throws, instead of resolving with an error, ends
    either read operation at once: the result is the empty list or "not
    found", one line is logged, and the local documents are not fallen
    back to. *)
Theorem thrown_query_skips_fallback {L : Libs} (e : Err) (slug : jsstring)
        (markdownFiles : MarkdownFiles) (log : Console) :
  getAllPosts (Thrown e) markdownFiles log
  = (Returned [],
     log ++ [{| label := js "Error fetching blog posts:"; detail := e |}])
  /\ getPostBySlug slug (Thrown e) markdownFiles log
     = (Returned None,
        log ++ [{| label := js "Error fetching blog post:"; detail := e |}]).
Proof.
  split.
  - rewrite getAllPosts_runs. reflexivity.
  - rewrite getPostBySlug_runs. reflexivity.
Qed.

(** X4. On the local path, fetching all posts logs the error of the
    response, if it has one, and then exactly one line for each document
    whose loader or header throws, in the order of the glob, labelled with
    the path of the document; nothing else is logged and nothing that was
    logged before is lost. *)
Theorem skipped_documents_logged {L : Libs}
        (r : Store.Response (list Store.Row))
        (markdownFiles : MarkdownFiles) (log : Console) :
  falls_back (Returned r) = true ->
  snd (getAllPosts (Returned r) markdownFiles log)
  = log ++ query_line r ++ failures markdownFiles
  /\ List.length (failures markdownFiles)
     + List.length (well_formed markdownFiles)
     = List.length markdownFiles.
Proof.
  intros H. rewrite getAllPosts_runs. unfold remote_rows. simpl in H.
  split.
  - destruct (Store.data r) as [[|row rows]|]; try discriminate;
      cbn [snd]; now rewrite app_assoc.
  - clear H. induction markdownFiles as [|[path load] rest IH];
      [reflexivity|].
    cbn [failures well_formed]. unfold thrown_by.
    destruct load as [content|e];
      [destruct (frontMatter content) as [parsed|e]|];
      cbn [List.length]; lia.
Qed.

Lemma skipped_documents_logged_witness :
  List.map label
    (snd (@getAllPosts Demo.read Demo.no_rows Demo.files []))
  = [js "Error processing markdown file /content/blog/broken.md:";
     js "Error processing markdown file /content/blog/missing.md:"].
Proof.
  destruct (@skipped_documents_logged Demo.read
              {| Store.data := Some []; Store.error := None |}
              Demo.files [] eq_refl) as [H _].
  unfold Demo.no_rows. rewrite H. vm_compute. reflexivity.
Defined.

(** X5. On the local path, fetching one post logs the error of the
    response, if it has one, and then one line for each document that
    throws among those that come before the first document carrying the
    slug; the documents after the match are not read. *)
Theorem lookup_stops_at_match {L : Libs} (slug : jsstring)
        (r : Store.Response Store.Row)
        (markdownFiles : MarkdownFiles) (log : Console) :
  Store.data r = None ->
  snd (getPostBySlug slug (Returned r) markdownFiles log)
  = log ++ query_line r ++ failures (before_match slug markdownFiles)
  /\ (forall found later,
        carries slug (snd found) = true ->
        before_match slug (markdownFiles ++ found :: later)
        = before_match slug (markdownFiles ++ [found])).
Proof.
  intros H. rewrite getPostBySlug_runs, H. split.
  - cbn [snd]. now rewrite app_assoc.
  - intros [path load] later Hc. cbn [snd] in Hc.
    induction markdownFiles as [|[path' load'] rest IH]; simpl.
    + now rewrite Hc.
    + destruct (carries slug load'); [reflexivity | now rewrite IH].
Qed.

Lemma lookup_stops_at_match_witness :
  snd (@getPostBySlug Demo.read (js "older") Demo.no_row Demo.files [])
  = [{| label := js "Supabase fetch error:";
        detail := js "no rows returned" |}].
Proof.
  destruct (@lookup_stops_at_match Demo.read (js "older")
              {| Store.data := None;
                 Store.error := Some (js "no rows returned") |}
              Demo.files [] eq_refl) as [H _].
  unfold Demo.no_row. rewrite H. vm_compute. reflexivity.
Defined.

(** X6. A post that fetching one post finds among the local documents
    carries the slug that was asked for, and is one of the posts that the
    local documents give. *)
Theorem local_lookup_matches_slug {L : Libs} (slug : jsstring)
        (r : Store.Response Store.Row)
        (markdownFiles : MarkdownFiles) (log : Console) (p : BlogPost) :
  Store.data r = None ->
  fst (getPostBySlug slug (Returned r) markdownFiles log) = Returned (Some p) ->
  Markdown.slug p = slug /\ from_document markdownFiles p.
Proof.
  intros H E. rewrite getPostBySlug_runs, H in E. cbn [fst] in E.
  injection E as E. apply local_match_slug in E as [Hs Hin].
  split; [exact Hs|].
  apply in_map_iff in Hin as (d & <- & Hd).
  now apply rendered_from_document.
Qed.

Lemma local_lookup_matches_slug_witness :
  exists p,
    run (@getPostBySlug Demo.read (js "newer") Demo.no_row Demo.files)
    = Returned (Some p)
    /\ Markdown.slug p = js "newer".
Proof.
  eexists. split; [vm_compute; reflexivity|].
  eapply (@local_lookup_matches_slug Demo.read (js "newer")
            {| Store.data := None;
               Store.error := Some (js "no rows returned") |}
            Demo.files []); [reflexivity|].
  vm_compute. reflexivity.
Defined.

(** X7. On the local path the two read operations agree: a post that
    fetching one post returns is among the posts that fetching all posts
    returns, and every post that fetching all posts returns can be fetched
    by its slug, which gives a post with that slug (the first document
    that carries it). *)
Theorem local_reads_agree {L : Libs}
        (rAll : Store.Response (list Store.Row))
        (rOne : Store.Response Store.Row)
        (markdownFiles : MarkdownFiles) (log1 log2 : Console) :
  falls_back (Returned rAll) = true ->
  Store.data rOne = None ->
  exists posts,
    fst (getAllPosts (Returned rAll) markdownFiles log1) = Returned posts
    /\ (forall slug p,
          fst (getPostBySlug slug (Returned rOne) markdownFiles log2)
          = Returned (Some p) -> In p posts)
    /\ (forall p, In p posts ->
          exists p',
            fst (getPostBySlug (Markdown.slug p) (Returned rOne)
                   markdownFiles log2) = Returned (Some p')
            /\ Markdown.slug p' = Markdown.slug p).
Proof.
  intros HA HO. rewrite getAllPosts_runs. unfold remote_rows. simpl in HA.
  assert (Store.data rAll = Some [] \/ Store.data rAll = None) as Hd.
  { destruct (Store.data rAll) as [[|row rows]|]; try discriminate; auto. }
  eexists. split.
  { destruct Hd as [-> | ->]; reflexivity. }
  split.
  - intros slug p E. rewrite getPostBySlug_runs, HO in E. cbn [fst] in E.
    injection E as E. apply local_match_slug in E as [_ Hin].
    now apply (Permutation_in _ (Permutation_sym (sort_perm by_date _))).
  - intros p Hp.
    apply (Permutation_in _ (sort_perm by_date _)) in Hp.
    apply in_map_iff in Hp as (d & <- & Hd').
    destruct (@local_match_found L (fm_slug (fst d)) markdownFiles d
                Hd' eq_refl) as [p' Hp'].
    exists p'. rewrite getPostBySlug_runs, HO. cbn [fst].
    split; [now rewrite <- Hp'|].
    now apply local_match_slug in Hp' as [Hs _].
Qed.

Lemma local_reads_agree_witness :
  exists posts,
    run (@getAllPosts Demo.read Demo.no_rows Demo.files) = Returned posts
    /\ List.length posts = 2.
Proof.
  destruct (@local_reads_agree Demo.read
              {| Store.data := Some []; Store.error := None |}
              {| Store.data := None;
                 Store.error := Some (js "no rows returned") |}
              Demo.files [] [] eq_refl eq_refl) as (posts & E & _).
  exists posts. split; [exact E|].
  vm_compute in E. now injection E as <-.
Defined.

(** X8. The sort of the local path is stable on what is sorted already:
    when the documents that parse are newest first in the order of the
    glob, ties included, fetching all posts returns them in that order. *)
Theorem sorted_documents_keep_order {L : Libs}
        (r : Store.Response (list Store.Row))
        (markdownFiles : MarkdownFiles) (log : Console) :
  falls_back (Returned r) = true ->
  StronglySorted not_older
    (List.map (fun d => post_of_document (fst d) (snd d))
              (well_formed markdownFiles)) ->
  fst (getAllPosts (Returned r) markdownFiles log)
  = Returned (List.map (fun d => post_of_document (fst d) (snd d))
                       (well_formed markdownFiles)).
Proof.
  intros H Hs. rewrite getAllPosts_runs. unfold remote_rows. simpl in H.
  destruct (Store.data r) as [[|row rows]|]; try discriminate;
    cbn [fst]; f_equal; now apply sort_sorted_id.
Qed.

Lemma sorted_documents_keep_order_witness :
  let twice := Demo.untitled ++ Demo.untitled in
  exists p,
    run (@getAllPosts Demo.read Demo.no_rows twice) = Returned [p; p].
Proof.
  intros twice.
  pose proof (@sorted_documents_keep_order Demo.read
                {| Store.data := Some []; Store.error := None |}
                twice [] eq_refl) as H.
  eexists. unfold run, Demo.no_rows. rewrite H.
  - vm_compute. reflexivity.
  - set (l := List.map _ (well_formed twice)). vm_compute in l. subst l.
    apply SSorted_cons;
      [apply SSorted_cons; [apply SSorted_nil | apply Forall_nil]|].
    apply Forall_cons; [|apply Forall_nil].
    exists 1704153600000%Z, 1704153600000%Z.
    split; [vm_compute; reflexivity|].
    split; [vm_compute; reflexivity | apply Z.le_refl].
Defined.

End ResolutionMore.

(** ** Upload conversion: more of what the code shows *)

Module UploaderFacts.
Import Uploader UploaderView UploaderProps.

Section WithLibs.
Context {L : Libs}.

Lemma slice0_length n (s : jsstring) : List.length (slice0 n s) <= n.
Proof. unfold slice0. rewrite length_firstn. lia. Qed.

Lemma extracted_excerpt_length md prev :
  List.length (excerpt (extracted md prev)) <= 200.
Proof.
  unfold extracted. cbn [excerpt].
  destruct (Regex.re_match excerptRe md); [apply slice0_length | simpl; lia].
Qed.

Lemma deploy_settle_metadata p settled st :
  metadata (fst (deploy_settle p settled st)) = metadata st
  /\ markdown (fst (deploy_settle p settled st)) = markdown st
  /\ file (fst (deploy_settle p settled st)) = file st.
Proof.
  unfold deploy_settle.
  destruct settled as [r|e]; [destruct (Store.error r)|]; now repeat split.
Qed.

Lemma payload_kept mountedAt now st :
  draft_kept mountedAt st ->
  title (metadata st) <> [] -> markdown st <> [] ->
  record_kept mountedAt (payload now st).
Proof.
  intros (Hd & Hf & He) Ht Hm. unfold record_kept, payload.
  cbn [Store.date Store.featured_image Store.excerpt Store.title
         Store.content Store.slug].
  rewrite Hf. cbn [truthy]. repeat split; try assumption.
  unfold or_else. destruct (truthy (excerpt (metadata st)));
    [exact He | apply slice0_length].
Qed.

(** Every state the page reaches keeps the date of the mount, no featured
    image and a short excerpt, and so does every record it has issued. *)
Lemma reachable_kept mountedAt w :
  reachable mountedAt w ->
  draft_kept mountedAt (ui w) /\ Forall (record_kept mountedAt) (issued w).
Proof.
  induction 1 as [|w w' _ [IHd IHi] Hs].
  - split; [|constructor]. unfold draft_kept. simpl. repeat split. lia.
  - destruct Hs as [w f|w html|w v|w v|w now st' effects awaited Hb
                    |w before p after settled st' effects Ho Hsettle];
      cbn [ui issued].
    + split; [|exact IHi]. unfold handleFileSelect.
      destruct (negb (accepted f)); exact IHd.
    + split; [|exact IHi]. destruct IHd as (Hd & Hf & He).
      unfold draft_kept, onload.
      cbn [metadata setMetadata setMarkdown].
      split; [exact Hd|]. split; [exact Hf|].
      apply extracted_excerpt_length.
    + split; [exact IHd | exact IHi].
    + split; [exact IHd | exact IHi].
    + unfold deploy_begin in Hb.
      destruct (truthy (title (metadata (ui w)))) eqn:Ht;
        destruct (truthy (markdown (ui w))) eqn:Hm;
        cbn [negb orb] in Hb; injection Hb as <- <- <-;
        try (split; [exact IHd | exact IHi]).
      split; [exact IHd|].
      apply Forall_app. split; [exact IHi|].
      constructor; [|constructor].
      apply payload_kept; [exact IHd| |].
      * intros E. now rewrite E in Ht.
      * intros E. now rewrite E in Hm.
    + split; [|exact IHi].
      destruct (deploy_settle_metadata p settled (ui w)) as (Hm & _).
      rewrite Hsettle in Hm. cbn [fst] in Hm.
      unfold draft_kept. now rewrite Hm.
Qed.

End WithLibs.

Lemma submitting_reachable :
  @reachable Demo.upload DemoPage.mountedAt DemoPage.submitting.
Proof.
  apply reach_step with DemoPage.loaded.
  - apply reach_step with DemoPage.selected.
    + apply reach_step with (mounted DemoPage.mountedAt).
      * apply reach_mounted.
      * exact (@step_select Demo.upload (mounted DemoPage.mountedAt)
                 DemoPage.html_file).
    + exact (@step_onload Demo.upload DemoPage.selected
               (text DemoPage.html_file)).
  - exact (@step_click Demo.upload DemoPage.loaded DemoPage.submittedAt
             (setError None (setIsDeploying true (ui DemoPage.loaded)))
             [Insert (@payload Demo.upload DemoPage.submittedAt
                        (ui DemoPage.loaded))]
             (Some (@payload Demo.upload DemoPage.submittedAt
                      (ui DemoPage.loaded)))
             eq_refl).
Qed.

End UploaderFacts.

Module UploaderMore.
Import Uploader UploaderView UploaderProps UploaderFacts.

(** C9, as amended. Selecting an accepted file whose read completes sets
    [file], clears [error], sets the body to the text [md] the file
    converts to, and sets the three derived fields from [md]: [title] to
    the trimmed text that follows the first [#] at a line start, [slug]
    to [slugify] of the lower-cased text captured there, [excerpt] to the
    first run of characters other than [#] and LF that begins at a line
    start, trimmed and cut to 200. [date], [featuredImage] and
    [isDeploying] keep the values they had; and in whatever state the
    page has reached when the file is selected, [date] is afterwards
    still the date at the moment the page was mounted. *)
Theorem selection_updates_draft {L : Libs} (f : File) (st : State)
        (mountedAt : jsstring) (w : World) :
  accepted f = true ->
  reachable mountedAt w ->
  let md := turndown (text f) in
  let st' := fileSelected f st in
  file st' = Some f
  /\ error st' = None
  /\ markdown st' = md
  /\ title (metadata st') = Outline.heading_title md
  /\ slug (metadata st')
     = match Outline.heading_capture md with
       | Some g => slugify (toLowerCase g)
       | None => []
       end
  /\ excerpt (metadata st') = slice0 200 (trim (Outline.plain_run md))
  /\ date (metadata st') = date (metadata st)
  /\ featuredImage (metadata st') = featuredImage (metadata st)
  /\ isDeploying st' = isDeploying st
  /\ date (metadata (fileSelected f (ui w))) = date_part mountedAt.
Proof.
  intros Ha Hr. cbn zeta.
  apply reachable_kept in Hr as [(Hd & _) _].
  unfold fileSelected, handleFileSelect. rewrite Ha.
  cbn [negb fst snd]. unfold onload.
  cbn [metadata markdown file error isDeploying
         setMetadata setMarkdown setError setFile].
  destruct (ExtractionProps.extracted_fields (turndown (text f))
              (metadata st)) as (Ht & Hs & He & Hdate & Hf).
  destruct (ExtractionProps.extracted_fields (turndown (text f))
              (metadata (ui w))) as (_ & _ & _ & Hdate' & _).
  rewrite Ht, Hs, He, Hdate, Hf, Hdate', Hd. now repeat split.
Qed.

Lemma selection_updates_draft_witness :
  let f := {| name := js "Second.HTML"; type := [];
              text := Demo.second_md |} in
  let st' := @fileSelected Demo.upload f (ui DemoPage.submitting) in
  title (metadata st') = js "Second"
  /\ slug (metadata st') = js "second"
  /\ excerpt (metadata st') = js "Text"
  /\ date (metadata st') = js "2024-01-01".
Proof.
  intros f st'. subst st'.
  destruct (@selection_updates_draft Demo.upload f (ui DemoPage.submitting)
              DemoPage.mountedAt DemoPage.submitting)
    as (_ & _ & _ & Ht & Hs & He & _ & _ & _ & Hd).
  - vm_compute. reflexivity.
  - exact submitting_reachable.
  - rewrite Ht, Hs, He, Hd. vm_compute. repeat split.
Defined.



(** X9. Whatever the draft and whatever the store answers, [handleDeploy]
    leaves the file, the body and the metadata of the draft as they were,
    ends with [isDeploying] cleared, and issues an insert exactly when the
    title and the body are both non-empty, and then only one, as its first
    effect. *)
Theorem deploy_keeps_draft {L : Libs} (now : jsstring)
        (insert : Store.Row -> Outcome (Store.Response (list Store.Row)))
        (st : State) :
  let st' := fst (handleDeploy now insert st) in
  let effects := snd (handleDeploy now insert st) in
  file st' = file st
  /\ markdown st' = markdown st
  /\ metadata st' = metadata st
  /\ isDeploying st' = false
  /\ List.filter (fun e => match e with Insert _ => true | _ => false end)
       effects
     = if truthy (title (metadata st)) && truthy (markdown st)
       then [Insert (payload now st)] else [].
Proof.
  cbn zeta. unfold handleDeploy, deploy_begin.
  destruct (truthy (title (metadata st))), (truthy (markdown st));
    cbn [negb orb andb]; try (now repeat split).
  unfold deploy_settle.
  destruct (insert (payload now st)) as [r|e];
    [destruct (Store.error r)|]; now repeat split.
Qed.

(** X10. When the insert of a valid draft fails, by a rejected promise or
    by an error in the response, [handleDeploy] shows the message of the
    failure, or "Failed to deploy blog post" when the message is empty,
    does not navigate, and leaves the draft as it was, so that the button
    is enabled again for a retry. *)
Theorem failed_insert_is_shown {L : Libs} (now : jsstring)
        (insert : Store.Row -> Outcome (Store.Response (list Store.Row)))
        (st : State) (err : Err) :
  title (metadata st) <> [] -> markdown st <> [] ->
  (insert (payload now st) = Thrown err
   \/ exists r, insert (payload now st) = Returned r
                /\ Store.error r = Some err) ->
  exists st',
    handleDeploy now insert st
    = (st', [Insert (payload now st);
             ConsoleError (js "Deployment error:") err])
    /\ error st'
       = Some (match err with
               | [] => js "Failed to deploy blog post"
               | _ :: _ => err
               end)
    /\ metadata st' = metadata st
    /\ markdown st' = markdown st
    /\ disabled st' = false.
Proof.
  intros Ht Hm Hi. unfold handleDeploy.
  rewrite deploy_begin_valid
    by (destruct (title (metadata st)), (markdown st); simpl; congruence).
  unfold deploy_settle.
  assert (match insert (payload now st) with
          | Returned r => Store.error r
          | Thrown e => Some e
          end = Some err) as ->.
  { destruct Hi as [-> | (r & -> & Hr)]; [reflexivity | exact Hr]. }
  eexists. split; [reflexivity|].
  split; [destruct err; reflexivity|].
  split; [reflexivity|]. split; [reflexivity|].
  unfold disabled. simpl.
  destruct (title (metadata st)), (markdown st); simpl; congruence.
Qed.

Lemma failed_insert_is_shown_witness :
  let duplicate :=
    js "duplicate key value violates unique constraint" in
  error
    (fst (@handleDeploy Demo.upload (js "2024-01-03T09:00:00.000Z")
            (fun _ => Returned {| Store.data := None;
                                  Store.error := Some duplicate |})
            (Demo.draft (js "2024-01-01T10:00:00.000Z") Demo.hello_html)))
  = Some duplicate.
Proof.
  intros duplicate.
  destruct (@failed_insert_is_shown Demo.upload
              (js "2024-01-03T09:00:00.000Z")
              (fun _ => Returned {| Store.data := None;
                                    Store.error := Some duplicate |})
              (Demo.draft (js "2024-01-01T10:00:00.000Z") Demo.hello_html)
              duplicate) as (st' & E & He & _).
  - vm_compute. discriminate.
  - vm_compute. discriminate.
  - right. eexists. split; reflexivity.
  - rewrite E. cbn [fst]. rewrite He. reflexivity.
Defined.

(** X11. When the insert of a valid draft succeeds, [handleDeploy] issues
    the insert and then navigates to [/blog/] followed by the slug it has
    computed from the title, and nothing else; an error that was shown
    before is cleared. *)
Theorem successful_insert_navigates {L : Libs} (now : jsstring)
        (insert : Store.Row -> Outcome (Store.Response (list Store.Row)))
        (st : State) (r : Store.Response (list Store.Row)) :
  title (metadata st) <> [] -> markdown st <> [] ->
  insert (payload now st) = Returned r -> Store.error r = None ->
  exists st',
    handleDeploy now insert st
    = (st', [Insert (payload now st);
             Navigate (js "/blog/"
                       ++ slugify (toLowerCase (title (metadata st))))])
    /\ error st' = None
    /\ isDeploying st' = false.
Proof.
  intros Ht Hm Hi Hr. unfold handleDeploy.
  rewrite deploy_begin_valid
    by (destruct (title (metadata st)), (markdown st); simpl; congruence).
  unfold deploy_settle. rewrite Hi, Hr.
  eexists. split; [reflexivity|]. split; reflexivity.
Qed.

Lemma successful_insert_navigates_witness :
  snd (@handleDeploy Demo.upload (js "2024-01-03T09:00:00.000Z")
         (fun p => Returned {| Store.data := Some [p];
                               Store.error := None |})
         (Demo.draft (js "2024-01-01T10:00:00.000Z") Demo.hello_html))
  = [Insert Demo.row_late; Navigate (js "/blog/hello")].
Proof.
  destruct (@successful_insert_navigates Demo.upload
              (js "2024-01-03T09:00:00.000Z")
              (fun p => Returned {| Store.data := Some [p];
                                    Store.error := None |})
              (Demo.draft (js "2024-01-01T10:00:00.000Z") Demo.hello_html)
              {| Store.data := Some [Demo.row_late]; Store.error := None |})
    as (st' & E & _).
  - vm_compute. discriminate.
  - vm_compute. discriminate.
  - reflexivity.
  - reflexivity.
  - rewrite E. vm_compute. reflexivity.
Defined.

(** X12. A file that is neither of type [text/html] nor named [*.html]
    changes nothing but the error: the file selected before, the body and
    the metadata stay, and no read is started. A change event without a
    file changes nothing at all, and one with several files looks at the
    first only. *)
Theorem rejected_file_keeps_draft {L : Libs} (f : File) (st : State) :
  accepted f = false ->
  handleFileSelect f st
  = (setError (Some (js "Please select a valid HTML file")) st, false)
  /\ file (fst (handleFileSelect f st)) = file st
  /\ markdown (fst (handleFileSelect f st)) = markdown st
  /\ metadata (fst (handleFileSelect f st)) = metadata st
  /\ handleFileChange None st = (st, false)
  /\ handleFileChange (Some []) st = (st, false)
  /\ (forall others,
        handleFileChange (Some (f :: others)) st = handleFileSelect f st).
Proof.
  intros H. unfold handleFileChange, handleFileSelect. rewrite H.
  now repeat split.
Qed.

Lemma rejected_file_keeps_draft_witness :
  let f := {| name := js "notes.txt"; type := js "text/plain";
              text := Demo.hello_html |} in
  let st := Demo.draft (js "2024-01-01T10:00:00.000Z") Demo.hello_html in
  markdown (fst (@handleFileSelect Demo.upload f st)) = Demo.hello_md
  /\ error (fst (@handleFileSelect Demo.upload f st))
     = Some (js "Please select a valid HTML file").
Proof.
  intros f st.
  destruct (@rejected_file_keeps_draft Demo.upload f st) as (E & _ & Hm & _).
  - vm_compute. reflexivity.
  - rewrite Hm, E. split; vm_compute; reflexivity.
Defined.

(** X13. The error is rendered inside the form, and the form only while
    the body is non-empty: on a page whose body is empty, a freshly
    mounted one in particular, rejecting a file changes nothing of what
    the component shows, although the message is stored. *)
Theorem rejection_unseen_without_body {L : Libs} (f : File) (st : State)
        (mountedAt : jsstring) :
  accepted f = false -> markdown st = [] ->
  view (fst (handleFileSelect f st)) = view st
  /\ form (view (fst (handleFileSelect f st))) = None
  /\ error (fst (handleFileSelect f st))
     = Some (js "Please select a valid HTML file")
  /\ view (fst (handleFileSelect f (initial mountedAt)))
     = view (initial mountedAt).
Proof.
  intros H Hm. unfold handleFileSelect. rewrite H.
  unfold view. cbn. rewrite Hm. now repeat split.
Qed.

Lemma rejection_unseen_without_body_witness :
  let f := {| name := js "notes.txt"; type := js "text/plain";
              text := Demo.hello_html |} in
  let st := initial (js "2024-01-01T10:00:00.000Z") in
  view (fst (@handleFileSelect Demo.upload f st))
  = {| upload_text := js "Click to upload HTML file"; form := None |}.
Proof.
  intros f st.
  destruct (@rejection_unseen_without_body Demo.upload f st
              (js "2024-01-01T10:00:00.000Z")) as (E & _).
  - vm_compute. reflexivity.
  - reflexivity.
  - rewrite E. reflexivity.
Defined.

(** X14. Nothing the page does changes the date or the featured image of
    its draft: in every state it reaches the date is the date of the
    mount and the featured image is empty, so every record it inserts
    carries the date of the mount and no featured image, and the
    [BlogPost] component renders no image for it. *)
Theorem date_and_image_never_change {L : Libs} (mountedAt : jsstring)
        (w : World) :
  reachable mountedAt w ->
  date (metadata (ui w)) = date_part mountedAt
  /\ featuredImage (metadata (ui w)) = []
  /\ (forall p, In p (issued w) ->
        Store.date p = date_part mountedAt
        /\ Store.featured_image p = None
        /\ BlogPostView.featured (Markdown.post_of_row p) = None).
Proof.
  intros Hr. apply reachable_kept in Hr as [(Hd & Hf & _) Hi].
  split; [exact Hd|]. split; [exact Hf|].
  intros p Hp. rewrite Forall_forall in Hi.
  destruct (Hi p Hp) as (Hpd & Hpf & _).
  split; [exact Hpd|]. split; [exact Hpf|].
  unfold BlogPostView.featured, Markdown.post_of_row.
  cbn [Markdown.featuredImage]. now rewrite Hpf.
Qed.

Lemma date_and_image_never_change_witness :
  List.map Store.date (issued DemoPage.submitting) = [js "2024-01-01"]
  /\ List.map Store.featured_image (issued DemoPage.submitting) = [None].
Proof.
  destruct (@date_and_image_never_change Demo.upload DemoPage.mountedAt
              DemoPage.submitting submitting_reachable) as (_ & _ & H).
  destruct (H (@payload Demo.upload DemoPage.submittedAt
                 (ui DemoPage.loaded)) (or_introl eq_refl))
    as (Hd & Hf & _).
  cbn [DemoPage.submitting issued List.map]. rewrite Hd, Hf.
  split; reflexivity.
Defined.

(** X15. In every state the page reaches the excerpt of the draft has at
    most 200 code units, and so has the excerpt of every record it
    inserts. *)
Theorem excerpts_stay_short {L : Libs} (mountedAt : jsstring) (w : World) :
  reachable mountedAt w ->
  List.length (excerpt (metadata (ui w))) <= 200
  /\ Forall (fun p => List.length (Store.excerpt p) <= 200) (issued w).
Proof.
  intros Hr. apply reachable_kept in Hr as [(_ & _ & He) Hi].
  split; [exact He|].
  eapply Forall_impl; [|exact Hi].
  now intros p (_ & _ & Hp & _).
Qed.

Lemma excerpts_stay_short_witness :
  List.length (excerpt (metadata (ui DemoPage.submitting))) <= 200
  /\ List.map Store.excerpt (issued DemoPage.submitting) = [js "World"].
Proof.
  destruct (@excerpts_stay_short Demo.upload DemoPage.mountedAt
              DemoPage.submitting submitting_reachable) as (H & _).
  split; [exact H | reflexivity].
Defined.

(** X16. Every record the page inserts has a non-empty title and a
    non-empty content, and its slug is [slugify] of its own title in lower
    case. *)
Theorem issued_records_filled {L : Libs} (mountedAt : jsstring) (w : World) :
  reachable mountedAt w ->
  Forall (fun p =>
            Store.title p <> [] /\ Store.content p <> []
            /\ Store.slug p = slugify (toLowerCase (Store.title p)))
         (issued w).
Proof.
  intros Hr. apply reachable_kept in Hr as [_ Hi].
  eapply Forall_impl; [|exact Hi].
  now intros p (_ & _ & _ & Ht & Hc & Hs).
Qed.

Lemma issued_records_filled_witness :
  Forall (fun p => Store.title p <> [] /\ Store.content p <> [])
         (issued DemoPage.submitting)
  /\ List.map Store.slug (issued DemoPage.submitting) = [js "hello"].
Proof.
  split; [|reflexivity].
  eapply Forall_impl;
    [|exact (@issued_records_filled Demo.upload DemoPage.mountedAt
               DemoPage.submitting submitting_reachable)].
  now intros p (Ht & Hc & _).
Defined.

End UploaderMore.

(** ** The heuristics: more of what the code shows *)

Module HeuristicsFacts.
Import Regex Uploader Outline Lines JSFacts RegexFacts.

Lemma dropWhile_split (p : N -> bool) (s : jsstring) :
  exists pre, s = pre ++ dropWhile p s /\ forallb p pre = true.
Proof.
  induction s as [|c t (pre & E & Hp)]; simpl.
  - now exists [].
  - destruct (p c) eqn:Hc.
    + exists (c :: pre). simpl. rewrite Hc, Hp. now rewrite <- E.
    + now exists [].
Qed.

Lemma dropWhile_Forall (P : N -> Prop) (p : N -> bool) (s : jsstring) :
  Forall P s -> Forall P (dropWhile p s).
Proof.
  induction 1 as [|c t Hc Ht IH]; simpl; [constructor|].
  destruct (p c); [exact IH | now constructor].
Qed.

Lemma takeWhile_Forall (p : N -> bool) (s : jsstring) :
  Forall (fun c => p c = true) (takeWhile p s).
Proof.
  induction s as [|c t IH]; simpl; [constructor|].
  destruct (p c) eqn:Hc; now constructor.
Qed.

Lemma trim_Forall (P : N -> Prop) (s : jsstring) :
  Forall P s -> Forall P (trim s).
Proof.
  intros H. unfold trim.
  apply Forall_rev, dropWhile_Forall, Forall_rev, dropWhile_Forall, H.
Qed.

(** A trimmed text does not begin with white space. *)
Lemma trim_head (s : jsstring) (c : N) (t : jsstring) :
  trim s = c :: t -> isSpace c = false.
Proof.
  unfold trim. intros H.
  destruct (dropWhile_split isSpace (rev (dropWhile isSpace s)))
    as (pre & E & _).
  apply (f_equal (@rev N)) in E.
  rewrite rev_involutive, rev_app_distr, H in E.
  simpl in E. now apply dropWhile_head in E.
Qed.

(** A trimmed text does not end with white space. *)
Lemma trim_last (s : jsstring) (t : jsstring) (c : N) :
  trim s = t ++ [c] -> isSpace c = false.
Proof.
  unfold trim. intros H.
  apply (f_equal (@rev N)) in H.
  rewrite rev_involutive, rev_app_distr in H. simpl in H.
  now apply dropWhile_head in H.
Qed.

Lemma firstn_Forall (P : N -> Prop) n (s : jsstring) :
  Forall P s -> Forall P (firstn n s).
Proof.
  intros H. revert n. induction H as [|c t Hc Ht IH]; intros [|n]; simpl;
    try constructor; [assumption | apply IH].
Qed.

Lemma dropWhile_app_all (p : N -> bool) (ws s : jsstring) :
  forallb p ws = true -> dropWhile p (ws ++ s) = dropWhile p s.
Proof.
  induction ws as [|c t IH]; simpl; [reflexivity|].
  intros H. apply andb_true_iff in H as [-> Ht]. now apply IH.
Qed.

Lemma takeWhile_app_all (p : N -> bool) (s tail : jsstring) :
  forallb p s = true ->
  match tail with [] => True | u :: _ => p u = false end ->
  takeWhile p (s ++ tail) = s.
Proof.
  intros Hs Ht. induction s as [|c t IH]; simpl in *.
  - destruct tail as [|u tl]; [reflexivity | simpl; now rewrite Ht].
  - apply andb_true_iff in Hs as [-> Hs]. now rewrite IH.
Qed.

(** Without white-space iteration the continuation is reached further on,
    with the group it was given. *)
Lemma star_reaches p k prev s i g r :
  star p k prev s i g = Some r ->
  exists c', k c' = Some r /\ i <= index c' /\ group1 c' = g.
Proof.
  revert prev i. induction s as [|u t IH]; intros prev i H; simpl in H.
  - exists (Cursor prev [] i g). now repeat split.
  - destruct (p u).
    + destruct (star p k (Some u) t (S i) g) as [r'|] eqn:E.
      * injection H as <-.
        destruct (IH _ _ E) as (c' & Hk & Hi & Hg).
        exists c'. repeat split; try assumption. lia.
      * exists (Cursor prev (u :: t) i g). now repeat split.
    + exists (Cursor prev (u :: t) i g). now repeat split.
Qed.

(** [(.+)$] hands on a group that is set and not empty. *)
Lemma line_reaches k c r :
  exec (Seq (Grp (Plus inline)) Eol) k c = Some r ->
  exists c' g, k c' = Some r /\ group1 c' = Some g /\ g <> [].
Proof.
  destruct c as [b a i g0]. cbn [exec Plus ahead index before group1].
  destruct a as [|u t]; [discriminate|].
  destruct (inline u); [|discriminate].
  intros H. apply star_reaches in H as (c1 & Hk & Hi & _).
  cbn [ahead index before group1] in Hk.
  destruct (at_eol _); [|discriminate].
  eexists; eexists. split; [exact Hk|]. cbn [group1].
  split; [reflexivity|].
  destruct (index c1 - i) as [|n] eqn:E; [lia | discriminate].
Qed.

Lemma attempt_title_reaches prev s i m :
  attempt titleRe prev s i = Some m ->
  exists g, snd m = Some g /\ g <> [].
Proof.
  unfold attempt, titleRe. cbn [exec before ahead index group1].
  destruct (at_bol _); [|discriminate].
  destruct s as [|u t]; [discriminate|].
  destruct (N.eqb hash u); [|discriminate].
  intros H. apply star_reaches in H as (c1 & Hk & _).
  apply line_reaches in Hk as (c' & g & Hf & Hg & Hne).
  unfold finish in Hf. injection Hf as <-.
  exists g. now split.
Qed.

Lemma scan_title_reaches prev s i m :
  scan titleRe prev s i = Some m ->
  exists g, snd m = Some g /\ g <> [].
Proof.
  revert prev i. induction s as [|u t IH]; intros prev i; cbn [scan].
  - destruct (attempt titleRe prev [] i) eqn:E; [|discriminate].
    intros H. injection H as <-. now apply attempt_title_reaches in E.
  - destruct (attempt titleRe prev (u :: t) i) eqn:E.
    + intros H. injection H as <-. now apply attempt_title_reaches in E.
    + apply IH.
Qed.

Lemma split_lines_head (t current : jsstring) :
  exists rest,
    split_lines t current
    = (rev current ++ takeWhile not_newline t) :: rest.
Proof.
  revert current. induction t as [|c t IH]; intros current; simpl.
  - exists []. now rewrite app_nil_r.
  - unfold not_newline at 1. destruct (N.eqb c newline); simpl.
    + eexists. now rewrite app_nil_r.
    + destruct (IH (c :: current)) as [rest ->].
      exists rest. simpl. now rewrite <- app_assoc.
Qed.

Lemma takeWhile_plain_hashless (s : jsstring) :
  ~ In hash s -> takeWhile plain s = takeWhile not_newline s.
Proof.
  induction s as [|c t IH]; simpl; [reflexivity|].
  intros H. unfold plain at 1, not_newline at 1.
  destruct (N.eqb_spec c hash) as [->|_]; [exfalso; apply H; now left|].
  simpl. destruct (N.eqb c newline); [reflexivity|].
  simpl. f_equal. apply IH. intros Hin. apply H. now right.
Qed.

(** In a text without [#] the excerpt expression finds the first line
    that is not empty. *)
Lemma hashless_first_line (s : jsstring) (prev : option N) :
  ~ In hash s -> line_start prev = true ->
  option_map (takeWhile plain) (line_start_suffix plain prev s)
  = find truthy (lines_of s).
Proof.
  revert prev. induction s as [|c t IH]; intros prev H Hp.
  - reflexivity.
  - cbn [line_start_suffix]. rewrite Hp. cbn [andb].
    unfold lines_of. cbn [split_lines].
    assert (c <> hash) as Hh by (intros ->; apply H; now left).
    assert (~ In hash t) as Ht by (intros Hin; apply H; now right).
    destruct (N.eqb_spec c newline) as [->|Hn].
    + assert (plain newline = false) as -> by reflexivity.
      cbn [find truthy rev]. apply IH; [exact Ht | reflexivity].
    + assert (plain c = true) as Hpc.
      { unfold plain. apply N.eqb_neq in Hh, Hn. now rewrite Hh, Hn. }
      rewrite Hpc. cbn [option_map takeWhile]. rewrite Hpc.
      destruct (split_lines_head t [c]) as [rest ->].
      cbn [find rev app truthy].
      now rewrite takeWhile_plain_hashless.
Qed.

Lemma hashless_no_mark (s : jsstring) (prev : option N) :
  ~ In hash s -> line_start_suffix (N.eqb hash) prev s = None.
Proof.
  revert prev. induction s as [|c t IH]; intros prev H; [reflexivity|].
  cbn [line_start_suffix].
  destruct (N.eqb_spec hash c) as [<-|_]; [exfalso; apply H; now left|].
  rewrite andb_false_r. apply IH. intros Hin. apply H. now right.
Qed.

End HeuristicsFacts.

Module HeuristicsMore.
Import Regex Uploader Outline Lines JSFacts RegexFacts ExtractionProps.
Import HeuristicsFacts.

(** X17. Whenever the title expression matches, its group is defined and
    not empty, so the [trim] and [toLowerCase] that lines 70-71 apply to
    [titleMatch[1]] never meet [undefined]. *)
Theorem title_group_defined (md : jsstring) (m : result) :
  re_match titleRe md = Some m ->
  exists g, snd m = Some g /\ g <> [] /\ group m = g.
Proof.
  intros H. apply scan_title_reaches in H as (g & Hg & Hne).
  exists g. repeat split; try assumption. unfold group. now rewrite Hg.
Qed.

Lemma title_group_defined_witness :
  exists m,
    re_match titleRe Demo.hello_md = Some m /\ snd m = Some (js "Hello").
Proof.
  eexists. split; [vm_compute; reflexivity|].
  destruct (@title_group_defined Demo.hello_md
              (js "# Hello", Some (js "Hello"))) as (g & Hg & _).
  - vm_compute. reflexivity.
  - reflexivity.
Defined.

(** X18. The title that is extracted never holds a line terminator and
    neither begins nor ends with white space, whatever the text. *)
Theorem title_is_one_trimmed_line {L : Libs} (md : jsstring)
        (prev : Metadata) :
  Forall (fun c => isLineTerminator c = false) (title (extracted md prev))
  /\ (forall c t, title (extracted md prev) = c :: t -> isSpace c = false)
  /\ (forall t c, title (extracted md prev) = t ++ [c] -> isSpace c = false).
Proof.
  destruct (extracted_fields md prev) as (-> & _).
  unfold heading_title.
  destruct (heading_rest md) as [rest|].
  - split; [|split].
    + apply trim_Forall.
      eapply Forall_impl; [|apply (takeWhile_Forall inline)].
      intros c Hc. unfold inline in Hc. now apply negb_true_iff in Hc.
    + intros c t. apply trim_head.
    + intros t c. apply trim_last.
  - split; [constructor|]. split.
    + discriminate.
    + intros [|? ?] c; discriminate.
Qed.

Lemma title_is_one_trimmed_line_witness :
  let m := @extracted Demo.upload
             (js "#  Spaced out  " ++ Demo.LF ++ js "body")
             (metadata (initial (js "2024-01-01T10:00:00.000Z"))) in
  title m = js "Spaced out" /\ isSpace 83 = false /\ isSpace 116 = false.
Proof.
  intros m.
  destruct (@title_is_one_trimmed_line Demo.upload
              (js "#  Spaced out  " ++ Demo.LF ++ js "body")
              (metadata (initial (js "2024-01-01T10:00:00.000Z"))))
    as (_ & Hhead & Hlast).
  split; [vm_compute; reflexivity|]. split.
  - apply (Hhead 83%N (js "paced out")). vm_compute. reflexivity.
  - apply (Hlast (js "Spaced ou") 116%N). vm_compute. reflexivity.
Defined.

(** X19. The excerpt that is extracted has at most 200 code units, holds
    neither [#] nor LF, and does not begin with white space, whatever the
    text. *)
Theorem excerpt_is_short_and_plain {L : Libs} (md : jsstring)
        (prev : Metadata) :
  List.length (excerpt (extracted md prev)) <= 200
  /\ Forall (fun c => c <> hash /\ c <> newline) (excerpt (extracted md prev))
  /\ (forall c t,
        excerpt (extracted md prev) = c :: t -> isSpace c = false).
Proof.
  destruct (extracted_fields md prev) as (_ & _ & -> & _).
  split; [|split].
  - unfold slice0. rewrite length_firstn. lia.
  - unfold slice0. apply firstn_Forall, trim_Forall.
    unfold plain_run.
    destruct (line_start_suffix plain None md) as [s|]; [|constructor].
    eapply Forall_impl; [|apply (takeWhile_Forall plain)].
    intros c Hc. unfold plain in Hc.
    apply negb_true_iff, orb_false_iff in Hc as [H1 H2].
    split; now apply N.eqb_neq.
  - intros c t H. unfold slice0 in H.
    destruct (trim (plain_run md)) as [|c' t'] eqn:E; [discriminate|].
    simpl in H. injection H as <- _. now apply trim_head in E.
Qed.

Lemma excerpt_is_short_and_plain_witness :
  let m := @extracted Demo.upload
             (js "# T" ++ Demo.LF ++ js "  C# rocks")
             (metadata (initial (js "2024-01-01T10:00:00.000Z"))) in
  excerpt m = js "C" /\ isSpace 67 = false.
Proof.
  intros m.
  destruct (@excerpt_is_short_and_plain Demo.upload
              (js "# T" ++ Demo.LF ++ js "  C# rocks")
              (metadata (initial (js "2024-01-01T10:00:00.000Z"))))
    as (_ & _ & Hhead).
  split; [vm_compute; reflexivity|].
  apply (Hhead 67%N []). vm_compute. reflexivity.
Defined.

(** X20. For a text that holds no [#] at all, the title and the slug are
    empty, and the excerpt is the first line that is not empty, trimmed
    and cut to 200 code units. *)
Theorem text_without_heading {L : Libs} (md : jsstring) (prev : Metadata) :
  ~ In hash md ->
  title (extracted md prev) = []
  /\ slug (extracted md prev) = []
  /\ excerpt (extracted md prev) = slice0 200 (trim (first_line md)).
Proof.
  intros H. destruct (extracted_fields md prev) as (-> & -> & -> & _).
  unfold heading_title, heading_capture, heading_rest.
  rewrite (@hashless_no_mark md None H).
  split; [reflexivity|]. split; [reflexivity|].
  f_equal. f_equal. unfold plain_run, first_line.
  pose proof (@hashless_first_line md None H eq_refl) as E.
  destruct (line_start_suffix plain None md); simpl in E;
    now rewrite <- E.
Qed.

Lemma text_without_heading_witness :
  excerpt (@extracted Demo.upload
             (Demo.LF ++ js "  Just a paragraph. " ++ Demo.LF ++ js "More")
             (metadata (initial (js "2024-01-01T10:00:00.000Z"))))
  = js "Just a paragraph.".
Proof.
  destruct (@text_without_heading Demo.upload
              (Demo.LF ++ js "  Just a paragraph. " ++ Demo.LF ++ js "More")
              (metadata (initial (js "2024-01-01T10:00:00.000Z"))))
    as (_ & _ & ->).
  - vm_compute. intros H.
    repeat (destruct H as [H|H]; [discriminate|]). exact H.
  - vm_compute. reflexivity.
Defined.

(** X21. When the text begins with [#], white space, and then a text [t]
    that starts with a unit other than white space and runs to the end of
    the line, the title is [t] trimmed and the slug is [slugify] of [t] in
    lower case, whatever follows that line. *)
Theorem leading_heading_is_title {L : Libs} (ws t tail : jsstring)
        (prev : Metadata) :
  forallb isSpace ws = true ->
  match t with [] => False | c :: _ => isSpace c = false end ->
  forallb inline t = true ->
  match tail with [] => True | u :: _ => isLineTerminator u = true end ->
  let md := hash :: ws ++ t ++ tail in
  title (extracted md prev) = trim t
  /\ slug (extracted md prev) = slugify (toLowerCase t).
Proof.
  intros Hws Ht Hin Htail md.
  destruct (extracted_fields md prev) as (-> & -> & _).
  unfold heading_title, heading_capture, heading_rest, heading_text, md.
  cbn [line_start_suffix line_start andb]. rewrite N.eqb_refl.
  rewrite (dropWhile_app_all _ _ _ Hws).
  destruct t as [|c t']; [contradiction|].
  cbn [app dropWhile]. rewrite Ht.
  assert (takeWhile inline (c :: t' ++ tail) = c :: t') as ->.
  { apply (takeWhile_app_all inline (c :: t') tail Hin).
    destruct tail as [|u tl]; [exact I|].
    unfold inline. now rewrite Htail. }
  split; reflexivity.
Qed.

Lemma leading_heading_is_title_witness :
  let m := @extracted Demo.upload Demo.hello_md
             (metadata (initial (js "2024-01-01T10:00:00.000Z"))) in
  title m = js "Hello" /\ slug m = js "hello".
Proof.
  destruct (@leading_heading_is_title Demo.upload (js " ") (js "Hello")
              (Demo.LF ++ Demo.LF ++ js "World")
              (metadata (initial (js "2024-01-01T10:00:00.000Z"))))
    as [Ht Hs]; try reflexivity.
  cbn zeta. split.
  - etransitivity; [exact Ht | vm_compute; reflexivity].
  - etransitivity; [exact Hs | vm_compute; reflexivity].
Defined.

End HeuristicsMore.

(** ** More on the way from the draft to the reader *)

Module RoundTripMore.
Import Markdown.

(** X22. What is submitted is what is read: when a draft with a title and
    a body is submitted and the store later delivers the inserted record,
    fetching one post returns, whatever slug was asked for and whatever
    the local documents are, a post with the title, the date and the
    excerpt of the record, with the slug computed from the title, and
    with the body of the draft, as it was typed, as the [content] that the
    [BlogPost] component injects. *)
Theorem submitted_draft_is_read_back {U : Uploader.Libs} {R : Libs}
        (now : jsstring)
        (insert : Store.Row -> Outcome (Store.Response (list Store.Row)))
        (st : Uploader.State) (asked : jsstring)
        (r : Store.Response Store.Row)
        (markdownFiles : MarkdownFiles) (log : Console) :
  Uploader.title (Uploader.metadata st) <> [] ->
  Uploader.markdown st <> [] ->
  exists p,
    hd_error (snd (Uploader.handleDeploy now insert st))
    = Some (Uploader.Insert p)
    /\ (Store.data r = Some p ->
        exists post,
          fst (getPostBySlug asked (Returned r) markdownFiles log)
          = Returned (Some post)
          /\ title post = Uploader.title (Uploader.metadata st)
          /\ date post = Uploader.date (Uploader.metadata st)
          /\ slug post
             = Uploader.slugify
                 (Uploader.toLowerCase
                    (Uploader.title (Uploader.metadata st)))
          /\ excerpt post = Store.excerpt p
          /\ content post = Uploader.markdown st
          /\ BlogPostView.inner_html post = Uploader.markdown st).
Proof.
  intros Ht Hm. exists (Uploader.payload now st). split.
  - unfold Uploader.handleDeploy.
    rewrite UploaderProps.deploy_begin_valid
      by (destruct (Uploader.title (Uploader.metadata st)),
                   (Uploader.markdown st); simpl; congruence).
    now destruct (Uploader.deploy_settle _ _ _).
  - intros Hd. eexists.
    rewrite ConsoleFacts.getPostBySlug_runs, Hd. cbn [fst].
    split; [reflexivity|]. now repeat split.
Qed.

Lemma submitted_draft_is_read_back_witness :
  exists post,
    run (@getPostBySlug Demo.read (js "hello")
           (Returned {| Store.data := Some Demo.row_late;
                        Store.error := None |}) Demo.files)
    = Returned (Some post)
    /\ content post = Demo.hello_md.
Proof.
  destruct (@submitted_draft_is_read_back Demo.upload Demo.read
              (js "2024-01-03T09:00:00.000Z")
              (fun p => Returned {| Store.data := Some [p];
                                    Store.error := None |})
              (Demo.draft (js "2024-01-01T10:00:00.000Z") Demo.hello_html)
              (js "hello")
              {| Store.data := Some Demo.row_late; Store.error := None |}
              Demo.files [])
    as (p & Hp & H).
  - vm_compute. discriminate.
  - vm_compute. discriminate.
  - vm_compute in Hp. injection Hp as <-.
    destruct (H eq_refl) as (post & E & _ & _ & _ & _ & Hc & _).
    exists post. split; [exact E | exact Hc].
Defined.

End RoundTripMore.

Module ImageRule.
Import UploaderView.

(** X23. The image rule treats a missing attribute as an empty one: the
    markup of an element is that of the element with [alt] and [src]
    filled in as empty texts, an empty [title] is left out like a missing
    one, and without a title the markup is [![alt](src)]. *)
Theorem missing_attribute_is_empty (node : Img) :
  replacement node
  = replacement {| alt := Some (or_empty (alt node));
                   src := Some (or_empty (src node));
                   img_title := match img_title node with
                                | Some (c :: t) => Some (c :: t)
                                | _ => None
                                end |}
  /\ (or_empty (img_title node) = [] ->
      replacement node
      = js "![" ++ or_empty (alt node) ++ js "]("
        ++ or_empty (src node) ++ js ")").
Proof.
  unfold replacement. cbn [alt src img_title or_empty].
  split.
  - destruct (img_title node) as [[|c t]|]; reflexivity.
  - intros ->. reflexivity.
Qed.

Lemma missing_attribute_is_empty_witness :
  replacement {| alt := None; src := Some (js "a.png");
                 img_title := Some [] |}
  = js "![](a.png)".
Proof.
  destruct (missing_attribute_is_empty
              {| alt := None; src := Some (js "a.png");
                 img_title := Some [] |}) as [_ H].
  rewrite H; reflexivity.
Defined.

End ImageRule.
